(** * PriceTracker: price parsing, selector search, tracking registry and alert fan-out

    A shallow embedding of the Go backend of PriceTracker:
    - [scraper.go]: [ParsePriceString], [ScrapePrice], [ScrapePriceWithSelector];
    - [tracker.go]: [TruncateURL] and the comparison made on every tick of
      [StartMonitoring];
    - [main.go]: the handlers, [monitorPrices] and [checkAndNotify], with the
      goroutines they start kept in an explicit pool.

    Go strings are byte sequences: they are [string] values whose characters
    are the bytes.  [float64] is the kernel's binary64 type [float]. *)

From Stdlib Require Import ZArith String Ascii List Bool Lia DecimalString.
From Stdlib Require Import PrimFloat SpecFloat FloatOps FloatAxioms.
From stdpp Require Import base option list gmap strings.
Import ListNotations.

Local Open Scope Z_scope.

(** ** Results of fallible Go functions: [(value, error)] pairs *)

Inductive result (E A : Type) : Type :=
| Ok (a : A)
| Err (e : E).
Arguments Ok {E A} a.
Arguments Err {E A} e.

Definition is_ok {E A} (r : result E A) : bool :=
  match r with Ok _ => true | Err _ => false end.

(** ** Package [strings] *)

Module strings.

Definition len (s : string) : Z := Z.of_nat (String.length s).

(** [strings.HasPrefix(s, prefix)] *)
Definition HasPrefix (s p : string) : bool := String.prefix p s.

(** [strings.Contains(s, substr)] *)
Fixpoint Contains (s substr : string) : bool :=
  HasPrefix s substr ||
  match s with
  | EmptyString => false
  | String _ s' => Contains s' substr
  end.

(** [strings.Count(s, substr)] for a non-empty [substr]: the number of
    non-overlapping occurrences.  [skip] is the number of bytes still
    covered by the occurrence found last. *)
Fixpoint Count_from (skip : nat) (s substr : string) : Z :=
  match s with
  | EmptyString => 0
  | String _ s' =>
      match skip with
      | S k => Count_from k s' substr
      | O =>
          if HasPrefix s substr
          then 1 + Count_from (String.length substr - 1) s' substr
          else Count_from 0 s' substr
      end
  end.

Definition Count (s substr : string) : Z := Count_from 0 s substr.

(** [strings.LastIndex(s, substr)]: the byte index of the last occurrence,
    [-1] when there is none. *)
Fixpoint LastIndex_from (i : Z) (s substr : string) : Z :=
  match s with
  | EmptyString => if HasPrefix s substr then i else -1
  | String _ s' =>
      let r := LastIndex_from (i + 1) s' substr in
      if 0 <=? r then r else if HasPrefix s substr then i else -1
  end.

Definition LastIndex (s substr : string) : Z := LastIndex_from 0 s substr.

(** [strings.NewReplacer(old1, new1, ...).Replace(s)], every [old]
    non-empty: the string is scanned from the left; where some [old] is a
    prefix of the remaining input the first such pair, in argument order,
    is applied and the scan continues behind the occurrence. *)
Definition match_pair (pairs : list (string * string)) (s : string)
  : option (string * string) :=
  List.find (fun p => HasPrefix s (fst p)) pairs.

Fixpoint Replace_from (pairs : list (string * string)) (skip : nat) (s : string)
  : string :=
  match s with
  | EmptyString => EmptyString
  | String c s' =>
      match skip with
      | S k => Replace_from pairs k s'
      | O =>
          match match_pair pairs s with
          | Some (old, new) =>
              (new ++ Replace_from pairs (String.length old - 1) s')%string
          | None => String c (Replace_from pairs 0 s')
          end
      end
  end.

Definition Replace (pairs : list (string * string)) (s : string) : string :=
  Replace_from pairs 0 s.

(** [strings.ReplaceAll(s, old, new)] for a non-empty [old]. *)
Definition ReplaceAll (s old new : string) : string :=
  Replace [(old, new)] s.

(** [strings.HasSuffix] and [strings.TrimSuffix]. *)
Definition HasSuffix (s suffix : string) : bool :=
  let n := String.length s in
  let k := String.length suffix in
  (k <=? n)%nat && String.eqb (String.substring (n - k) k s) suffix.

Definition TrimSuffix (s suffix : string) : string :=
  if HasSuffix s suffix
  then String.substring 0 (String.length s - String.length suffix) s
  else s.

(** The UTF-8 encodings of the code points with the Unicode White_Space
    property, which is what [unicode.IsSpace] tests. *)
Definition bytes (l : list nat) : string :=
  string_of_list_ascii (List.map ascii_of_nat l).

Definition white_space : list string :=
  List.map bytes
    [ [9]; [10]; [11]; [12]; [13]; [32];
      [194; 133]; [194; 160]; [225; 154; 128];
      [226; 128; 128]; [226; 128; 129]; [226; 128; 130]; [226; 128; 131];
      [226; 128; 132]; [226; 128; 133]; [226; 128; 134]; [226; 128; 135];
      [226; 128; 136]; [226; 128; 137]; [226; 128; 138];
      [226; 128; 168]; [226; 128; 169]; [226; 128; 175];
      [226; 129; 159]; [227; 128; 128] ]%nat.

Definition space_prefix (s : string) : option string :=
  List.find (HasPrefix s) white_space.

Definition space_suffix (s : string) : option string :=
  List.find (HasSuffix s) white_space.

Fixpoint TrimLeft_space (fuel : nat) (s : string) : string :=
  match fuel with
  | O => s
  | S fuel' =>
      match space_prefix s with
      | Some w =>
          TrimLeft_space fuel'
            (String.substring (String.length w)
               (String.length s - String.length w) s)
      | None => s
      end
  end.

Fixpoint TrimRight_space (fuel : nat) (s : string) : string :=
  match fuel with
  | O => s
  | S fuel' =>
      match space_suffix s with
      | Some w =>
          TrimRight_space fuel'
            (String.substring 0 (String.length s - String.length w) s)
      | None => s
      end
  end.

(** [strings.TrimSpace(s)]: every step removes at least one byte, so
    [length s] steps are enough on both sides. *)
Definition TrimSpace (s : string) : string :=
  let l := TrimLeft_space (String.length s) s in
  TrimRight_space (String.length l) l.

End strings.

(** ** Package [strconv]: [ParseFloat(s, 64)]

    [strconv] belongs to Go's standard library, not to this repository.  The
    definitions below follow [readFloat], [special] and [underscoreOK] of
    [strconv/atof.go] for the accepted syntax.  For the value they state
    what the library computes instead of how (exact fast path, Eisel-Lemire,
    decimal fallback): the binary64 number nearest to the exact decimal or
    hexadecimal value, ties to even, [ErrRange] when that rounding
    overflows.  The mantissa is therefore kept whole where [readFloat] keeps
    19 digits and a truncation flag. *)

Module strconv.

Inductive NumError : Type := ErrSyntax | ErrRange.

Definition lower (c : ascii) : ascii :=
  ascii_of_N (N.lor (N_of_ascii c) 32).

Definition isDigit (c : ascii) : bool :=
  (("0" <=? c) && (c <=? "9"))%char.

Definition isHexLetter (c : ascii) : bool :=
  (("a" <=? lower c) && (lower c <=? "f"))%char.

Definition digitVal (c : ascii) : Z := Z.of_N (N_of_ascii c) - 48.

Definition hexVal (c : ascii) : Z := Z.of_N (N_of_ascii (lower c)) - 97 + 10.

Fixpoint commonPrefixLenIgnoreCase (s pre : string) : Z :=
  match s, pre with
  | String c s', String p pre' =>
      let c :=
        if (("A" <=? c) && (c <=? "Z"))%char
        then ascii_of_N (N_of_ascii c + 32) else c in
      if (c =? p)%char then 1 + commonPrefixLenIgnoreCase s' pre' else 0
  | _, _ => 0
  end.

Definition inf_len (s : string) : Z :=
  let n := commonPrefixLenIgnoreCase s "infinity" in
  if (3 <? n) && (n <? 8) then 3 else n.

(** [special]: the value and the number of bytes consumed. *)
Definition special (s : string) : option (float * Z) :=
  match s with
  | EmptyString => None
  | String c s' =>
      if ((c =? "+") || (c =? "-"))%char then
        let n := inf_len s' in
        if (n =? 3) || (n =? 8)
        then Some (if (c =? "-")%char then neg_infinity else infinity, 1 + n)
        else None
      else if ((c =? "i") || (c =? "I"))%char then
        let n := inf_len s in
        if (n =? 3) || (n =? 8) then Some (infinity, n) else None
      else if ((c =? "n") || (c =? "N"))%char then
        if commonPrefixLenIgnoreCase s "nan" =? 3 then Some (nan, 3) else None
      else None
  end.

Record mant : Type := Mant {
  mantissa : Z;        (* all digits read, leading zeros apart *)
  nd : Z;              (* number of digits in [mantissa] *)
  dp : Z;              (* position of the point *)
  sawdot : bool;
  sawdigits : bool;
  underscores : bool
}.

(** The digit loop of [readFloat]; returns the unread rest. *)
Fixpoint readDigits (hex : bool) (m : mant) (s : string) : mant * string :=
  match s with
  | EmptyString => (m, s)
  | String c s' =>
      if (c =? "_")%char then
        readDigits hex
          (Mant (mantissa m) (nd m) (dp m) (sawdot m) (sawdigits m) true) s'
      else if (c =? ".")%char then
        if sawdot m then (m, s)
        else
          readDigits hex
            (Mant (mantissa m) (nd m) (nd m) true (sawdigits m) (underscores m)) s'
      else if isDigit c then
        if (c =? "0")%char && (nd m =? 0) then
          readDigits hex
            (Mant (mantissa m) (nd m) (dp m - 1) (sawdot m) true (underscores m)) s'
        else
          readDigits hex
            (Mant (mantissa m * (if hex then 16 else 10) + digitVal c)
               (nd m + 1) (dp m) (sawdot m) true (underscores m)) s'
      else if hex && isHexLetter c then
        readDigits hex
          (Mant (mantissa m * 16 + hexVal c)
             (nd m + 1) (dp m) (sawdot m) true (underscores m)) s'
      else (m, s)
  end.

(** The exponent loop: digits and underscores; [e] stops growing at 10000. *)
Fixpoint readExp (e : Z) (us : bool) (s : string) : Z * bool * string :=
  match s with
  | EmptyString => (e, us, s)
  | String c s' =>
      if (c =? "_")%char then readExp e true s'
      else if isDigit c then
        readExp (if e <? 10000 then e * 10 + digitVal c else e) us s'
      else (e, us, s)
  end.

(** [underscoreOK]: an underscore stands only between digits, or between
    a base prefix and a digit.  [saw] is the kind of the byte before. *)
Inductive saw_kind : Type := SawStart | SawDigit | SawUnderscore | SawOther.

Fixpoint underscoreLoop (hex : bool) (saw : saw_kind) (s : string) : bool :=
  match s with
  | EmptyString => match saw with SawUnderscore => false | _ => true end
  | String c s' =>
      if isDigit c || (hex && isHexLetter c) then underscoreLoop hex SawDigit s'
      else if (c =? "_")%char then
        match saw with
        | SawDigit => underscoreLoop hex SawUnderscore s'
        | _ => false
        end
      else
        match saw with
        | SawUnderscore => false
        | _ => underscoreLoop hex SawOther s'
        end
  end.

Definition underscoreOK (s : string) : bool :=
  let s :=
    match s with
    | String c s' => if ((c =? "-") || (c =? "+"))%char then s' else s
    | EmptyString => s
    end in
  match s with
  | String c0 (String c1 s') =>
      if (c0 =? "0")%char &&
         ((lower c1 =? "b") || (lower c1 =? "o") || (lower c1 =? "x"))%char
      then underscoreLoop (lower c1 =? "x")%char SawDigit s'
      else underscoreLoop false SawStart s
  | _ => underscoreLoop false SawStart s
  end.

Record floatLit : Type := FloatLit {
  lit_mantissa : Z;
  lit_exp : Z;
  lit_neg : bool;
  lit_hex : bool
}.

(** [readFloat], for a literal that must span the whole of [s]. *)
Definition readFloat (s : string) : option floatLit :=
  match s with
  | EmptyString => None
  | String c0 s0 =>
      let '(neg, s1) :=
        if (c0 =? "+")%char then (false, s0)
        else if (c0 =? "-")%char then (true, s0)
        else (false, s) in
      let '(hex, s2) :=
        match s1 with
        | String d0 (String d1 (String d2 r)) =>
            if ((d0 =? "0") && (lower d1 =? "x"))%char
            then (true, String d2 r) else (false, s1)
        | _ => (false, s1)
        end in
      let '(m, s3) := readDigits hex (Mant 0 0 0 false false false) s2 in
      if negb (sawdigits m) then None
      else
        let dp0 := if sawdot m then dp m else nd m in
        let dp1 := if hex then dp0 * 4 else dp0 in
        let ndMant := if hex then nd m * 4 else nd m in
        let finish (dp2 : Z) (us : bool) (rest : string) : option floatLit :=
          match rest with
          | EmptyString =>
              if us && negb (underscoreOK s) then None
              else
                Some (FloatLit (mantissa m)
                        (if mantissa m =? 0 then 0 else dp2 - ndMant) neg hex)
          | String _ _ => None
          end in
        match s3 with
        | String c s4 =>
            if (lower c =? (if hex then "p" else "e"))%char then
              match s4 with
              | EmptyString => None
              | String c' s5 =>
                  let '(esign, s6) :=
                    if (c' =? "+")%char then (1, s5)
                    else if (c' =? "-")%char then (-1, s5)
                    else (1, s4) in
                  match s6 with
                  | String d _ =>
                      if isDigit d then
                        let '(e, us, rest) := readExp 0 (underscores m) s6 in
                        finish (dp1 + e * esign) us rest
                      else None
                  | EmptyString => None
                  end
              end
            else if hex then None
            else finish dp1 (underscores m) s3
        | EmptyString =>
            if hex then None else finish dp1 (underscores m) s3
        end
  end.

(** The binary64 number nearest to [mantissa * 10^exp], or to
    [mantissa * 2^exp] for a hexadecimal literal. *)
Definition nearest (l : floatLit) : spec_float :=
  match lit_mantissa l with
  | Zpos m =>
      if lit_hex l then binary_round prec emax (lit_neg l) m (lit_exp l)
      else if 0 <=? lit_exp l then
        binary_round prec emax (lit_neg l) (m * Z.to_pos (10 ^ lit_exp l)) 0
      else
        SFdiv prec emax (S754_finite (lit_neg l) m 0)
          (S754_finite false (Z.to_pos (10 ^ (- lit_exp l))) 0)
  | _ => S754_zero (lit_neg l)
  end.

Definition ParseFloat (s : string) : result NumError float :=
  match special s with
  | Some (f, n) => if n =? strings.len s then Ok f else Err ErrSyntax
  | None =>
      match readFloat s with
      | None => Err ErrSyntax
      | Some l =>
          match nearest l with
          | S754_infinity _ => Err ErrRange
          | sf => Ok (SF2Prim sf)
          end
      end
  end.

End strconv.

(** ** [backend/scraper/scraper.go] *)

Module scraper.

(** The errors the package builds with [fmt.Errorf]. *)
Inductive error : Type :=
| ErrGet                              (* failed to get URL *)
| ErrStatus (status : string)         (* bad status *)
| ErrHTML                             (* failed to parse HTML *)
| ErrNotFound                         (* could not find or parse price on page with known selectors *)
| ErrSelector (selector : string)     (* could not find price with selector *)
| ErrParse (priceStr cleanedStr : string) (err : strconv.NumError).

(** What the package reads off one element of a goquery selection. *)
Record Selection : Type := {
  Text : string;                      (* s.Text() *)
  Attr_content : option string;       (* s.Attr("content") *)
  Siblings_fraction : list string     (* the texts of s.SiblingsFiltered(".a-price-fraction") *)
}.

(** A parsed page, seen through [doc.Find(selector)]: the matching
    elements in document order.  Selector matching is goquery's. *)
Definition Document : Type := string -> list Selection.

(** The outcome of [http.Get] followed by [goquery.NewDocumentFromReader]. *)
Inductive fetched : Type :=
| GetFailed
| Response (StatusCode : Z) (Status : string) (doc : option Document).

Definition commonSelectors : list string :=
  [ ".a-price.a-text-price .a-offscreen";
    ".a-price-whole";
    ".a-offscreen";
    "[itemprop='price']";
    ".price";
    ".product-price";
    ".current-price";
    "#priceblock_ourprice";
    "#priceblock_dealprice";
    ".priceInfo .price .value" ]%string.

Definition isEmpty (s : string) : bool :=
  match s with EmptyString => true | String _ _ => false end.

(** The six pairs of the replacer: dollar, euro, pound, rupee, comma and
    space, each replaced by the empty string. *)
Definition replacer : list (string * string) :=
  [ ("$"%string, EmptyString);
    (strings.bytes [226; 130; 172]%nat, EmptyString);
    (strings.bytes [194; 163]%nat, EmptyString);
    (strings.bytes [226; 130; 185]%nat, EmptyString);
    (","%string, EmptyString);
    (" "%string, EmptyString) ].

Definition localize (cleanedStr : string) : string :=
  if (1 <? strings.Count cleanedStr ".") && strings.Contains cleanedStr ","
  then
    strings.ReplaceAll (strings.ReplaceAll cleanedStr "." EmptyString) "," "."
  else if strings.Contains cleanedStr "," && negb (strings.Contains cleanedStr ".")
  then
    if strings.LastIndex cleanedStr "," =? strings.len cleanedStr - 3
    then strings.ReplaceAll cleanedStr "," "."
    else cleanedStr
  else cleanedStr.

Definition ParsePriceString (priceStr : string) : result error float :=
  let cleanedStr := strings.Replace replacer priceStr in
  let cleanedStr := localize cleanedStr in
  match strconv.ParseFloat cleanedStr with
  | Err err => Err (ErrParse priceStr cleanedStr err)
  | Ok price => Ok price
  end.

(** The callback given to [EachWithBreak] on [".a-price-whole"]: it
    returns [false] at the first element, so only that one is read. *)
Definition amazonPriceText (doc : Document) : string :=
  match doc ".a-price-whole"%string with
  | [] => EmptyString
  | s :: _ =>
      let wholePart := strings.TrimSpace (Text s) in
      let wholePart := strings.ReplaceAll wholePart "," EmptyString in
      let wholePart := strings.TrimSuffix wholePart "." in
      let fractionPart :=
        match Siblings_fraction s with
        | [] => "00"%string
        | fractionEl :: _ => strings.TrimSpace fractionEl
        end in
      (wholePart ++ "." ++ fractionPart)%string
  end.

(** The callback of the general loop: the first element with a text, or
    else with a [content] attribute, that is not blank. *)
Fixpoint priceText (sel : list Selection) : string :=
  match sel with
  | [] => EmptyString
  | s :: rest =>
      let text := strings.TrimSpace (Text s) in
      if negb (isEmpty text) then text
      else
        match Attr_content s with
        | Some contentVal =>
            if negb (isEmpty (strings.TrimSpace contentVal))
            then strings.TrimSpace contentVal
            else priceText rest
        | None => priceText rest
        end
  end.

Fixpoint trySelectors (doc : Document) (selectors : list string)
  : result error (float * string) :=
  match selectors with
  | [] => Err ErrNotFound
  | selector :: rest =>
      let text := priceText (doc selector) in
      if negb (isEmpty text) then
        match ParsePriceString text with
        | Ok price => Ok (price, selector)
        | Err _ => trySelectors doc rest
        end
      else trySelectors doc rest
  end.

Definition compositeId : string := ".a-price-whole (composite)".

Definition scrapeDocument (doc : Document) : result error (float * string) :=
  let text := amazonPriceText doc in
  let general := trySelectors doc commonSelectors in
  if negb (isEmpty text) then
    match ParsePriceString text with
    | Ok price => Ok (price, compositeId)
    | Err _ => general
    end
  else general.

Definition withDocument {A} (page : fetched) (k : Document -> result error A)
  : result error A :=
  match page with
  | GetFailed => Err ErrGet
  | Response code status body =>
      if negb (code =? 200) then Err (ErrStatus status)
      else match body with
           | None => Err ErrHTML
           | Some doc => k doc
           end
  end.

(** [ScrapePrice(urlStr)], given what fetching [urlStr] returns. *)
Definition ScrapePrice (page : fetched) : result error (float * string) :=
  withDocument page scrapeDocument.

(** [ScrapePriceWithSelector(urlStr, selector)]. *)
Definition ScrapePriceWithSelector (page : fetched) (selector : string)
  : result error float :=
  withDocument page (fun doc =>
    let amazon :=
      if String.eqb selector compositeId then amazonPriceText doc
      else EmptyString in
    if negb (isEmpty amazon) then ParsePriceString amazon
    else
      let text := priceText (doc selector) in
      if isEmpty text then Err (ErrSelector selector)
      else ParsePriceString text).

End scraper.

(** ** [backend/tracker/tracker.go] *)

Module tracker.

(** Go's [int] on a 64-bit platform: the result of an arithmetic
    operation is reduced into [-2^63, 2^63). *)
Definition min_int : Z := - 2 ^ 63.
Definition max_int : Z := 2 ^ 63 - 1.
Definition wrap (z : Z) : Z := (z - min_int) mod 2 ^ 64 + min_int.

(** [TruncateURL(urlStr, maxLen)]; [None] is the run-time panic of the
    slice expression [urlStr[:maxLen-3]], raised when the bound is negative
    or beyond [len(urlStr)]. *)
Definition TruncateURL (urlStr : string) (maxLen : Z) : option string :=
  if strings.len urlStr <=? maxLen then Some urlStr
  else
    let hi := wrap (maxLen - 3) in
    if (hi <? 0) || (strings.len urlStr <? hi) then None
    else Some (String.substring 0 (Z.to_nat hi) urlStr ++ "...")%string.

(** The fields of [Tracker] the monitoring loop works on.  [Stopped] is
    the state of [StopChan]: closed or not. *)
Record Tracker : Type := {
  ID : string;
  URL : string;
  Selector : string;
  ThresholdPrice : float;
  LastPrice : float;
  Stopped : bool
}.

Definition set_Selector (t : Tracker) (sel : string) : Tracker :=
  {| ID := ID t; URL := URL t; Selector := sel;
     ThresholdPrice := ThresholdPrice t; LastPrice := LastPrice t;
     Stopped := Stopped t |}.

Definition set_LastPrice (t : Tracker) (p : float) : Tracker :=
  {| ID := ID t; URL := URL t; Selector := Selector t;
     ThresholdPrice := ThresholdPrice t; LastPrice := p;
     Stopped := Stopped t |}.

Definition set_Stopped (t : Tracker) : Tracker :=
  {| ID := ID t; URL := URL t; Selector := Selector t;
     ThresholdPrice := ThresholdPrice t; LastPrice := LastPrice t;
     Stopped := true |}.

(** The arguments [sendNotification] is called with: the price both
    format strings print and the shortened URL of the body. *)
Record notification : Type := {
  note_price : float;
  note_url : string
}.

(** What [webpush.SendNotification] returns: success, or an error with
    the status code of the response when there is one. *)
Inductive pushed : Type :=
| PushSent
| PushFailed (StatusCode : option Z).

(** [sendNotification]: a 404 or 410 from the push service closes
    [StopChan]; closing it a second time panics ([None]). *)
Definition sendNotification (t : Tracker) (push : pushed) : option Tracker :=
  match push with
  | PushFailed (Some code) =>
      if (code =? 404) || (code =? 410)
      then if Stopped t then None else Some (set_Stopped t)
      else Some t
  | _ => Some t
  end.

(** The comparison at the end of a tick, once [currentPrice] is known. *)
Definition compare (t : Tracker) (currentPrice : float) (push : pushed)
  : option (Tracker * option notification) :=
  if ((0 <? currentPrice) && (currentPrice <? LastPrice t)
      && (currentPrice <=? ThresholdPrice t))%float
  then
    match TruncateURL (URL t) 40 with
    | None => None
    | Some short =>
        match sendNotification t push with
        | None => None
        | Some t' =>
            Some (set_LastPrice t' currentPrice,
                  Some {| note_price := currentPrice; note_url := short |})
        end
    end
  else if (0 <? currentPrice)%float then
    if negb (currentPrice =? LastPrice t)%float
    then Some (set_LastPrice t currentPrice, None)
    else Some (t, None)
  else Some (t, None).

(** The body of [case <-ticker.C] in [StartMonitoring]: [first] is what
    fetching the URL returns to [ScrapePriceWithSelector], [fallback] to
    the general [ScrapePrice] tried after a failure. *)
Definition onTick (t : Tracker) (first fallback : scraper.fetched) (push : pushed)
  : option (Tracker * option notification) :=
  match scraper.ScrapePriceWithSelector first (Selector t) with
  | Ok currentPrice => compare t currentPrice push
  | Err _ =>
      match scraper.ScrapePrice fallback with
      | Err _ => Some (t, None)
      | Ok (currentPrice, newSelector) =>
          let t :=
            if negb (String.eqb newSelector (Selector t))
               && negb (scraper.isEmpty newSelector)
            then set_Selector t newSelector else t in
          compare t currentPrice push
      end
  end.

End tracker.

(** ** [backend/main.go] *)

Module main.

Record TrackingRequest : Type := {
  URL : string;
  TargetPrice : float;
  ID : string
}.

Record PriceCheckRequest : Type := {
  check_URL : string;
  check_TargetPrice : float
}.

Record PriceAlert : Type := {
  alert_ID : string;
  alert_URL : string;
  alert_CurrentPrice : float;
  alert_TargetPrice : float;
  alert_PriceString : string;
  alert_Timestamp : string
}.

(** [time.Now()], read through [Unix()] and [Format(time.RFC3339)]. *)
Record time : Type := {
  Unix : Z;
  RFC3339 : string
}.

(** *** [scrapePrice] *)

Inductive error : Type :=
| ErrVisit                            (* c.Visit(url) failed *)
| ErrPriceNotFound                    (* price not found *)
| ErrParsePrice (err : strconv.NumError).

(** What [c.Visit(url)] does: it fails, or it runs the [OnHTML] callback
    on every matching element, whose [e.Text] are listed in call order. *)
Inductive visit : Type :=
| VisitFailed
| Visited (texts : list string).

Fixpoint onHTML (texts : list string) (priceString : string) : string :=
  match texts with
  | [] => priceString
  | text :: rest =>
      onHTML rest
        (if scraper.isEmpty priceString then strings.TrimSpace text
         else priceString)
  end.

Definition rupee : string := strings.bytes [226; 130; 185]%nat.

Definition scrapePrice (v : visit) : result error (string * float) :=
  match v with
  | VisitFailed => Err ErrVisit
  | Visited texts =>
      let priceString := onHTML texts EmptyString in
      if scraper.isEmpty priceString then Err ErrPriceNotFound
      else
        let cleanPrice := strings.ReplaceAll priceString "," EmptyString in
        let cleanPrice := strings.ReplaceAll cleanPrice rupee EmptyString in
        let cleanPrice := strings.TrimSpace cleanPrice in
        match strconv.ParseFloat cleanPrice with
        | Err err => Err (ErrParsePrice err)
        | Ok price => Ok (priceString, price)
        end
  end.

(** *** The shared state and the goroutines *)

(** A [*Client] is an address; its [send] channel lives in a heap of
    channels, so that a channel outlives the removal of its client from
    [clients].  [handleWebSocket] makes every channel with capacity 256. *)
Definition client : Type := positive.

Definition sendCap : nat := 256.

Record chan : Type := {
  buf : list PriceAlert;
  closed : bool
}.

(** The goroutines that touch the shared maps, with where they stand. *)
Inductive goroutine : Type :=
| checkAndNotify (id : string) (item : TrackingRequest)
    (* started by [monitorPrices], inside [scrapePrice] *)
| checkAndNotify_delete (id : string)
    (* the alert is out; waiting for [mu.Lock] to delete the item *)
| immediateAlert (tempID : string) (req : PriceCheckRequest)
    (currentPrice : float) (priceString : string)
    (* the [go func()] of [checkPriceHandler] *)
| writePump (c : client).

(** The [log.Printf] lines that report an alert or a removal. *)
Inductive logline : Type :=
| LogPriceAlertSent (id : string)
| LogImmediateAlertSent (url : string)
| LogStoppedMonitoring (id : string).

Record state : Type := State {
  clients : gset client;                          (* the keys of [clients] *)
  chans : gmap client chan;                       (* [c.send] of every client made *)
  trackingItems : gmap string TrackingRequest;
  goroutines : list goroutine;
  log : list logline
}.

Definition set_clients (st : state) (cs : gset client) (ch : gmap client chan) : state :=
  State cs ch (trackingItems st) (goroutines st) (log st).

Definition set_trackingItems (st : state) (m : gmap string TrackingRequest) : state :=
  State (clients st) (chans st) m (goroutines st) (log st).

Definition set_goroutines (st : state) (gs : list goroutine) : state :=
  State (clients st) (chans st) (trackingItems st) gs (log st).

Definition add_log (st : state) (l : logline) : state :=
  State (clients st) (chans st) (trackingItems st) (goroutines st) (log st ++ [l]).

Definition init : state := State ∅ ∅ ∅ [] [].

(** *** Sending an alert to every client

    One iteration of [for client := range clients] with its [select]:
    the send goes through when the buffer has room, otherwise the
    [default] case closes the channel and deletes the client.  A send on a
    closed channel, or the close of a nil one, panics ([None]). *)
Definition deliver (alert : PriceAlert) (st : state) (c : client) : option state :=
  match chans st !! c with
  | None => None
  | Some ch =>
      if closed ch then None
      else if (length (buf ch) <? sendCap)%nat then
        Some (set_clients st (clients st)
                (<[c := {| buf := buf ch ++ [alert]; closed := false |}]> (chans st)))
      else
        Some (set_clients st (clients st ∖ {[c]})
                (<[c := {| buf := buf ch; closed := true |}]> (chans st)))
  end.

(** The loop, visiting the clients in [order]; Go leaves the order of a
    [range] over a map open. *)
Fixpoint broadcast_in (order : list client) (alert : PriceAlert) (st : state)
  : option state :=
  match order with
  | [] => Some st
  | c :: rest =>
      match deliver alert st c with
      | None => None
      | Some st' => broadcast_in rest alert st'
      end
  end.

Definition broadcast (alert : PriceAlert) (st : state) : option state :=
  broadcast_in (elements (clients st)) alert st.

(** *** The HTTP handlers *)

Inductive message : Type :=
| MsgInvalidCheck             (* Invalid URL or target price *)
| MsgUnableToFetch (err : error)
| MsgCheckSuccessful          (* Price check successful *)
| MsgInvalidTrack             (* Invalid URL, target price, or ID *)
| MsgTrackingStarted          (* Price tracking started *)
| MsgTrackingStopped.         (* Price tracking stopped *)

Record PriceCheckResponse : Type := {
  resp_CurrentPrice : float;
  resp_TargetPrice : float;
  resp_IsBelowTarget : bool;
  resp_PriceString : string;
  resp_Success : bool;
  resp_Message : message
}.

Definition failure (m : message) : PriceCheckResponse :=
  {| resp_CurrentPrice := 0; resp_TargetPrice := 0; resp_IsBelowTarget := false;
     resp_PriceString := EmptyString; resp_Success := false; resp_Message := m |}.

Definition tempID (now : time) : string :=
  ("check-" ++ DecimalString.NilZero.string_of_int (Z.to_int (Unix now)))%string.

(** [checkPriceHandler], for a body that decodes to [req]. *)
Definition checkPriceHandler (req : PriceCheckRequest) (v : visit) (now : time)
    (st : state) : PriceCheckResponse * state :=
  if scraper.isEmpty (check_URL req) || (check_TargetPrice req <=? 0)%float
  then (failure MsgInvalidCheck, st)
  else
    match scrapePrice v with
    | Err err => (failure (MsgUnableToFetch err), st)
    | Ok (priceString, currentPrice) =>
        let isBelowTarget := (currentPrice <=? check_TargetPrice req)%float in
        let response :=
          {| resp_CurrentPrice := currentPrice;
             resp_TargetPrice := check_TargetPrice req;
             resp_IsBelowTarget := isBelowTarget;
             resp_PriceString := priceString;
             resp_Success := true;
             resp_Message := MsgCheckSuccessful |} in
        if isBelowTarget then
          (response,
           set_goroutines st
             (goroutines st ++
                [immediateAlert (tempID now) req currentPrice priceString]))
        else (response, st)
    end.

(** The goroutine started above, run at time [now]. *)
Definition runImmediateAlert (tempID : string) (req : PriceCheckRequest)
    (currentPrice : float) (priceString : string) (now : time) (st : state)
  : option state :=
  let alert :=
    {| alert_ID := tempID; alert_URL := check_URL req;
       alert_CurrentPrice := currentPrice;
       alert_TargetPrice := check_TargetPrice req;
       alert_PriceString := priceString;
       alert_Timestamp := RFC3339 now |} in
  match broadcast alert st with
  | None => None
  | Some st' => Some (add_log st' (LogImmediateAlertSent (check_URL req)))
  end.

Record TrackResponse : Type := {
  track_success : bool;
  track_message : message
}.

(** [trackPriceHandler], for a body that decodes to [req]. *)
Definition trackPriceHandler (req : TrackingRequest) (st : state)
  : TrackResponse * state :=
  if scraper.isEmpty (URL req) || (TargetPrice req <=? 0)%float
     || scraper.isEmpty (ID req)
  then ({| track_success := false; track_message := MsgInvalidTrack |}, st)
  else
    ({| track_success := true; track_message := MsgTrackingStarted |},
     set_trackingItems st (<[ID req := req]> (trackingItems st))).

(** [untrackPriceHandler] *)
Definition untrackPriceHandler (id : string) (st : state) : TrackResponse * state :=
  ({| track_success := true; track_message := MsgTrackingStopped |},
   set_trackingItems st (delete id (trackingItems st))).

(** [getTrackedItemsHandler]: the copy made under the read lock. *)
Definition getTrackedItemsHandler (st : state) : list TrackingRequest :=
  List.map snd (map_to_list (trackingItems st)).

(** [handleWebSocket], after a successful upgrade: a new client with an
    empty channel, and its write pump.  [readPump] touches the connection
    only. *)
Definition handleWebSocket (st : state) : state :=
  let c := fresh (dom (chans st)) in
  State ({[c]} ∪ clients st)
    (<[c := {| buf := []; closed := false |}]> (chans st))
    (trackingItems st) (goroutines st ++ [writePump c]) (log st).

(** *** [monitorPrices] and [checkAndNotify] *)

(** One tick: a goroutine for every entry of [trackingItems]. *)
Definition launched (st : state) : list goroutine :=
  List.map (fun e => checkAndNotify (fst e) (snd e)) (map_to_list (trackingItems st)).

Definition tick (st : state) : state :=
  set_goroutines st (goroutines st ++ launched st).

(** [checkAndNotify] from the return of [scrapePrice] to [mu.RUnlock]:
    [None] is a panic; otherwise the new state and whether the goroutine
    goes on to delete the item. *)
Definition checkAndNotify_scraped (id : string) (item : TrackingRequest)
    (v : visit) (now : time) (st : state) : option (state * bool) :=
  match scrapePrice v with
  | Err _ => Some (st, false)
  | Ok (priceString, currentPrice) =>
      if (currentPrice <=? TargetPrice item)%float then
        let alert :=
          {| alert_ID := id; alert_URL := URL item;
             alert_CurrentPrice := currentPrice;
             alert_TargetPrice := TargetPrice item;
             alert_PriceString := priceString;
             alert_Timestamp := RFC3339 now |} in
        match broadcast alert st with
        | None => None
        | Some st' => Some (add_log st' (LogPriceAlertSent id), true)
        end
      else Some (st, false)
  end.

(** ... and its last critical section. *)
Definition checkAndNotify_remove (id : string) (st : state) : state :=
  add_log (set_trackingItems st (delete id (trackingItems st)))
    (LogStoppedMonitoring id).

(** One iteration of [writePump]: [Some true] when the pump goes on,
    [Some false] when it returns, [None] when the receive blocks. *)
Definition writePump_step (c : client) (writeFails : bool) (st : state)
  : option (state * bool) :=
  match chans st !! c with
  | None => None
  | Some ch =>
      match buf ch with
      | _ :: rest =>
          let chans' := <[c := {| buf := rest; closed := closed ch |}]> (chans st) in
          if writeFails
          then Some (set_clients st (clients st ∖ {[c]}) chans', false)
          else Some (set_clients st (clients st) chans', true)
      | [] =>
          if closed ch
          then Some (set_clients st (clients st ∖ {[c]}) (chans st), false)
          else None
      end
  end.

(** *** The interleavings

    The critical sections and handlers above are the atomic steps; an
    event names the one that runs next and carries what the outside
    world contributes to it.  The sections that send alerts hold the read
    lock only, so in Go two of them can overlap; here each runs as a
    whole. *)
Inductive event : Type :=
| TrackPrice (req : TrackingRequest)
| UntrackPrice (id : string)
| CheckPrice (req : PriceCheckRequest) (v : visit) (now : time)
| Connect
| Tick
| Scraped (g : nat) (v : visit) (now : time)
| Remove (g : nat)
| Immediate (g : nat) (now : time)
| Pump (g : nat) (writeFails : bool).

Inductive fault : Type := Panic | NotEnabled.

Definition finish (g : nat) (st : state) : state :=
  set_goroutines st (delete g (goroutines st)).

Definition become (g : nat) (r : goroutine) (st : state) : state :=
  set_goroutines st (<[g := r]> (goroutines st)).

Definition step (st : state) (ev : event) : result fault state :=
  match ev with
  | TrackPrice req => Ok (snd (trackPriceHandler req st))
  | UntrackPrice id => Ok (snd (untrackPriceHandler id st))
  | CheckPrice req v now => Ok (snd (checkPriceHandler req v now st))
  | Connect => Ok (handleWebSocket st)
  | Tick => Ok (tick st)
  | Scraped g v now =>
      match goroutines st !! g with
      | Some (checkAndNotify id item) =>
          match checkAndNotify_scraped id item v now st with
          | None => Err Panic
          | Some (st', true) => Ok (become g (checkAndNotify_delete id) st')
          | Some (st', false) => Ok (finish g st')
          end
      | _ => Err NotEnabled
      end
  | Remove g =>
      match goroutines st !! g with
      | Some (checkAndNotify_delete id) =>
          Ok (finish g (checkAndNotify_remove id st))
      | _ => Err NotEnabled
      end
  | Immediate g now =>
      match goroutines st !! g with
      | Some (immediateAlert tempID req currentPrice priceString) =>
          match runImmediateAlert tempID req currentPrice priceString now st with
          | None => Err Panic
          | Some st' => Ok (finish g st')
          end
      | _ => Err NotEnabled
      end
  | Pump g writeFails =>
      match goroutines st !! g with
      | Some (writePump c) =>
          match writePump_step c writeFails st with
          | None => Err NotEnabled
          | Some (st', true) => Ok st'
          | Some (st', false) => Ok (finish g st')
          end
      | _ => Err NotEnabled
      end
  end.

Fixpoint run (st : state) (evs : list event) : result fault state :=
  match evs with
  | [] => Ok st
  | ev :: rest =>
      match step st ev with
      | Ok st' => run st' rest
      | Err f => Err f
      end
  end.

(** *** Reading a state *)

Definition queue (st : state) (c : client) : list PriceAlert :=
  match chans st !! c with
  | Some ch => buf ch
  | None => []
  end.

Definition is_open (st : state) (c : client) : bool :=
  match chans st !! c with
  | Some ch => negb (closed ch)
  | None => false
  end.

Definition is_full (st : state) (c : client) : bool :=
  (sendCap <=? length (queue st c))%nat.

(** The number of "Price alert sent for [id]" lines in a log. *)
Fixpoint alertsFor (id : string) (l : list logline) : nat :=
  match l with
  | [] => 0
  | LogPriceAlertSent id' :: rest =>
      ((if String.eqb id' id then 1 else 0) + alertsFor id rest)%nat
  | _ :: rest => alertsFor id rest
  end.

(** The ids whose check is running: all of [checkAndNotify], and the part
    of it that has not compared the price yet. *)
Definition checkId (g : goroutine) : option string :=
  match g with
  | checkAndNotify id _ => Some id
  | checkAndNotify_delete id => Some id
  | _ => None
  end.

Definition scrapingId (g : goroutine) : option string :=
  match g with
  | checkAndNotify id _ => Some id
  | _ => None
  end.

Definition inFlight (st : state) : list string := omap checkId (goroutines st).

Definition scraping (st : state) : list string := omap scrapingId (goroutines st).

(** Every tick of [evs] comes when the checks of the ticks before it are
    over. *)
Fixpoint spaced (st : state) (evs : list event) : bool :=
  match evs with
  | [] => true
  | ev :: rest =>
      match ev with
      | Tick => match inFlight st with [] => true | _ => false end
      | _ => true
      end
      && match step st ev with
         | Ok st' => spaced st' rest
         | Err _ => true
         end
  end.

(** Some event of [evs] is a track request for [id]. *)
Definition tracks (id : string) (evs : list event) : bool :=
  existsb (fun ev => match ev with
                     | TrackPrice req => String.eqb (ID req) id
                     | _ => false
                     end) evs.

End main.


(** ** The strategy list, in the words of the specification

    The specification describes [ScrapePrice] as a list of extraction
    strategies tried in priority order, the first success winning.  These
    definitions follow that description; [selector.extract] is compared
    with [scraper.ScrapePrice] below. *)

Module selector.

Inductive strategy : Type :=
| Composite                     (* whole-number element plus fraction sibling *)
| Generic (hint : string).      (* one entry of the generic candidate list *)

Definition strategies : list strategy :=
  Composite :: List.map Generic scraper.commonSelectors.

Definition strategyId (s : strategy) : string :=
  match s with
  | Composite => scraper.compositeId
  | Generic hint => hint
  end.

(** The text a strategy matches in a document; empty when it matches none. *)
Definition matchedText (doc : scraper.Document) (s : strategy) : string :=
  match s with
  | Composite => scraper.amazonPriceText doc
  | Generic hint => scraper.priceText (doc hint)
  end.

(** A strategy succeeds when its matched text is not empty and the price
    parser accepts it. *)
Definition attempt (doc : scraper.Document) (s : strategy) : option float :=
  let text := matchedText doc s in
  if scraper.isEmpty text then None
  else match scraper.ParsePriceString text with
       | Ok price => Some price
       | Err _ => None
       end.

Fixpoint firstSuccess (doc : scraper.Document) (l : list strategy)
  : result scraper.error (float * string) :=
  match l with
  | [] => Err scraper.ErrNotFound
  | s :: rest =>
      match attempt doc s with
      | Some price => Ok (price, strategyId s)
      | None => firstSuccess doc rest
      end
  end.

Definition extract (doc : scraper.Document) : result scraper.error (float * string) :=
  firstSuccess doc strategies.

End selector.


(** ** Predicates used to state further properties *)

Module support.

(** The value of a result, the error forgotten. *)
Definition value {E A : Type} (r : result E A) : option A :=
  match r with
  | Ok a => Some a
  | Err _ => None
  end.

(** A string of ASCII bytes only. *)
Definition ascii_byte (c : ascii) : bool := (N_of_ascii c <? 128)%N.

Fixpoint ascii_only (s : string) : bool :=
  match s with
  | EmptyString => true
  | String c s' => ascii_byte c && ascii_only s'
  end.

(** [s] without its dollar signs, commas and spaces. *)
Definition separator (c : ascii) : bool :=
  ((c =? "$") || (c =? ",") || (c =? " "))%char.

Fixpoint strip (s : string) : string :=
  match s with
  | EmptyString => EmptyString
  | String c s' => if separator c then strip s' else String c (strip s')
  end.

(** An element with neither a text nor a [content] attribute that is left
    after trimming. *)
Definition blank (s : scraper.Selection) : bool :=
  scraper.isEmpty (strings.TrimSpace (scraper.Text s)) &&
  match scraper.Attr_content s with
  | Some contentVal => scraper.isEmpty (strings.TrimSpace contentVal)
  | None => true
  end.

(** The channel of every registered client is open. *)
Definition clients_open (st : main.state) : Prop :=
  forall c, c ∈ main.clients st -> main.is_open st c = true.

(** No queue holds more alerts than a channel has room for. *)
Definition queues_bounded (st : main.state) : Prop :=
  forall c ch, main.chans st !! c = Some ch ->
               (length (main.buf ch) <= main.sendCap)%nat.

(** Every tracked item is stored under its own id and passed the checks of
    [trackPriceHandler]. *)
Definition items_valid (st : main.state) : Prop :=
  forall id item,
    main.trackingItems st !! id = Some item ->
    main.ID item = id /\
    scraper.isEmpty (main.URL item) = false /\
    scraper.isEmpty (main.ID item) = false /\
    (main.TargetPrice item <=? 0)%float = false.

(** Every alert in a queue, and every alert a goroutine is about to send,
    has a price that is [<=] its target. *)
Definition alerts_due (st : main.state) : Prop :=
  (forall c ch a,
     main.chans st !! c = Some ch -> In a (main.buf ch) ->
     (main.alert_CurrentPrice a <=? main.alert_TargetPrice a)%float = true) /\
  (forall tempID req price priceString,
     In (main.immediateAlert tempID req price priceString) (main.goroutines st) ->
     (price <=? main.check_TargetPrice req)%float = true).

(** The alerts of a queue that carry [id]. *)
Definition alertsOf (id : string) (q : list main.PriceAlert) : list main.PriceAlert :=
  List.filter (fun a => String.eqb (main.alert_ID a) id) q.

(** The temporary ids of the one-shot alerts that are still to be sent. *)
Definition oneShotId (g : main.goroutine) : option string :=
  match g with
  | main.immediateAlert tempID _ _ _ => Some tempID
  | _ => None
  end.

Definition oneShots (st : main.state) : list string :=
  omap oneShotId (main.goroutines st).

(** Some event of [evs] is a check-price request that is given [id] as its
    temporary id. *)
Definition checksAs (id : string) (evs : list main.event) : bool :=
  existsb (fun ev => match ev with
                     | main.CheckPrice _ _ now => String.eqb (main.tempID now) id
                     | _ => false
                     end) evs.










End support.


(** ** Sample pages, requests and states used in the examples *)

Module sample.

Definition element (text : string) : scraper.Selection :=
  {| scraper.Text := text; scraper.Attr_content := None;
     scraper.Siblings_fraction := [] |}.

(** A page that splits the price over two nodes, "1,234" and "99". *)
Definition split_price : scraper.Document :=
  fun selector =>
    if String.eqb selector ".a-price-whole" then
      [ {| scraper.Text := "1,234"; scraper.Attr_content := None;
           scraper.Siblings_fraction := ["99"%string] |} ]
    else [].

(** The same page without the fraction node. *)
Definition whole_price : scraper.Document :=
  fun selector =>
    if String.eqb selector ".a-price-whole" then [ element "1,234" ] else [].

(** A page on which three strategies find a price: [".a-offscreen"],
    [".price"] and, through a [content] attribute, ["[itemprop='price']"];
    the text under [".a-price-whole"] is no number. *)
Definition several_prices : scraper.Document :=
  fun selector =>
    if String.eqb selector ".a-price-whole" then [ element "from" ]
    else if String.eqb selector ".a-offscreen" then [ element " "; element "$ 18.50" ]
    else if String.eqb selector "[itemprop='price']" then
      [ {| scraper.Text := EmptyString; scraper.Attr_content := Some "29.99"%string;
           scraper.Siblings_fraction := [] |} ]
    else if String.eqb selector ".price" then [ element "31.00" ]
    else [].

Definition ok_page (doc : scraper.Document) : scraper.fetched :=
  scraper.Response 200 "200 OK" (Some doc).

(** A page that shows [text] in its only [".price"] element. *)
Definition price_page (text : string) : scraper.fetched :=
  ok_page (fun selector =>
             if String.eqb selector ".price" then [ element text ] else []).

(** Instants, tracking requests and alerts. *)
Definition noon : main.time :=
  {| main.Unix := 1762084800; main.RFC3339 := "2025-11-02T12:00:00Z" |}.

Definition later : main.time :=
  {| main.Unix := 1762084830; main.RFC3339 := "2025-11-02T12:00:30Z" |}.

Definition itemA : main.TrackingRequest :=
  {| main.URL := "https://www.amazon.in/dp/A"; main.TargetPrice := 100; main.ID := "A" |}.

Definition itemA' : main.TrackingRequest :=
  {| main.URL := "https://www.amazon.in/dp/other"; main.TargetPrice := 50; main.ID := "A" |}.

Definition one_shot : main.PriceCheckRequest :=
  {| main.check_URL := "https://www.amazon.in/dp/B"; main.check_TargetPrice := 70000 |}.

Definition alertA : main.PriceAlert :=
  {| main.alert_ID := "A"; main.alert_URL := "https://www.amazon.in/dp/A";
     main.alert_CurrentPrice := 95; main.alert_TargetPrice := 100;
     main.alert_PriceString := "95"; main.alert_Timestamp := "2025-11-02T12:00:00Z" |}.

(** Three clients; the queue of the second holds 256 alerts. *)
Definition three_clients : main.state :=
  main.State {[1%positive; 2%positive; 3%positive]}
    (<[1%positive := {| main.buf := [alertA]; main.closed := false |}]>
       (<[2%positive := {| main.buf := List.repeat alertA 256; main.closed := false |}]>
          (<[3%positive := {| main.buf := []; main.closed := false |}]> ∅)))
    (<["A"%string := itemA]> ∅) [] [].

(** A tracker that has seen 120 for a threshold of 100. *)
Definition trackerA : tracker.Tracker :=
  {| tracker.ID := "A"; tracker.URL := "https://www.amazon.in/dp/A";
     tracker.Selector := ".price"; tracker.ThresholdPrice := 100;
     tracker.LastPrice := 120; tracker.Stopped := false |}.

(** One client with an empty queue, "A" tracked, and the check of "A"
    that the last tick started still inside [scrapePrice]. *)
Definition checking : main.state :=
  main.State {[1%positive]}
    (<[1%positive := {| main.buf := []; main.closed := false |}]> ∅)
    (<["A"%string := itemA]> ∅)
    [main.writePump 1%positive; main.checkAndNotify "A" itemA] [].


(** The second tick comes after the alert of the first check and before
    its removal of "A". *)
Definition refire : list main.event :=
  [ main.Connect;
    main.TrackPrice itemA;
    main.Tick;
    main.Scraped 1 (main.Visited ["95"%string]) noon;
    main.Tick;
    main.Remove 1;
    main.Scraped 1 (main.Visited ["90"%string]) later ].

(** An item tracked under the temporary id that a one-shot check made at
    [noon] is given: its check alerts at 95 and removes it; then such a
    one-shot check is made, and its alert goes out. *)
Definition itemC : main.TrackingRequest :=
  {| main.URL := "https://www.amazon.in/dp/C"; main.TargetPrice := 100;
     main.ID := "check-1762084800" |}.

Definition same_id : list main.event :=
  [ main.Connect;
    main.TrackPrice itemC;
    main.Tick;
    main.Scraped 1 (main.Visited ["95"%string]) noon;
    main.Remove 1;
    main.CheckPrice one_shot (main.Visited ["60,100"%string]) noon;
    main.Immediate 1 later ].

(** Two ticks while the check of "A" is still scraping. *)
Definition overlap : list main.event :=
  [ main.TrackPrice itemA; main.Tick; main.Tick ].

(** Every check is over before the next tick. *)
Definition in_turn : list main.event :=
  [ main.Connect;
    main.TrackPrice itemA;
    main.Tick;
    main.Scraped 1 (main.Visited ["120"%string]) noon;
    main.Tick;
    main.Scraped 1 (main.Visited ["95"%string]) later;
    main.Remove 1;
    main.Tick ].

End sample.


(** ** More sample values *)

Module sample2.

(** A tracker that has not seen a price yet. *)
Definition fresh_tracker : tracker.Tracker :=
  {| tracker.ID := "A"; tracker.URL := "https://www.amazon.in/dp/A";
     tracker.Selector := ".price"; tracker.ThresholdPrice := 100;
     tracker.LastPrice := 0; tracker.Stopped := false |}.

(** [sample.trackerA] after it has notified at 95. *)
Definition notified_tracker : tracker.Tracker :=
  tracker.set_LastPrice sample.trackerA 95.

End sample2.

Module sample3.

(** A client whose channel was closed with two alerts still queued, and
    its write pump. *)
Definition closing : main.state :=
  main.State ∅
    (<[1%positive := {| main.buf := [sample.alertA; sample.alertA];
                        main.closed := true |}]> ∅)
    ∅ [main.writePump 1%positive] [].

End sample3.

(** A decimal literal such as [29.99%float] denotes the binary64 number
    nearest to it, as a Go constant does. *)
Set Warnings "-inexact-float".

(** * Properties *)

(** ** The replacer leaves no comma behind *)

Lemma HasPrefix_comma (c : ascii) (s : string) :
  strings.HasPrefix (String c s) "," = Ascii.eqb c ",".
Proof.
  unfold strings.HasPrefix.
  change (String.prefix "," (String c s))
    with (if ascii_dec "," c then String.prefix EmptyString s else false).
  destruct (ascii_dec "," c) as [<- | Hne].
  - rewrite Ascii.eqb_refl. now destruct s.
  - symmetry. apply Ascii.eqb_neq. congruence.
Qed.

Lemma Contains_comma_cons (c : ascii) (s : string) :
  strings.Contains (String c s) "," = Ascii.eqb c "," || strings.Contains s ",".
Proof. cbn [strings.Contains]. now rewrite HasPrefix_comma. Qed.

Lemma replacer_new_empty (p : string * string) :
  In p scraper.replacer -> snd p = EmptyString.
Proof.
  unfold scraper.replacer. simpl.
  intros H. repeat (destruct H as [<- | H]; [reflexivity |]). destruct H.
Qed.

Lemma Replace_from_no_comma (s : string) :
  forall skip, strings.Contains (strings.Replace_from scraper.replacer skip s) "," = false.
Proof.
  induction s as [| c s IH]; intros skip.
  - reflexivity.
  - destruct skip as [| k]; [| apply IH].
    cbn [strings.Replace_from].
    destruct (strings.match_pair scraper.replacer (String c s)) as [[old new] |] eqn:Hm.
    + apply List.find_some in Hm as [Hin _].
      apply replacer_new_empty in Hin. simpl in Hin. subst new.
      apply IH.
    + rewrite Contains_comma_cons, IH, orb_false_r.
      pose proof (List.find_none _ _ Hm (","%string, EmptyString)) as Hc.
      cbn [fst] in Hc. rewrite HasPrefix_comma in Hc.
      apply Hc. unfold scraper.replacer. simpl. tauto.
Qed.

Lemma localize_cleaned (priceStr : string) :
  scraper.localize (strings.Replace scraper.replacer priceStr)
  = strings.Replace scraper.replacer priceStr.
Proof.
  unfold scraper.localize, strings.Replace.
  rewrite Replace_from_no_comma.
  now rewrite andb_false_r.
Qed.

(** C3: [ParsePriceString] strips every comma before it looks for the
    European form, so the swap is never applied: "60,100" and "29.99" are
    parsed to 60100 and 29.99, but "1.234,56" is parsed to 1.23456 and not
    to 1234.56, and a string with two grouping points is rejected. *)
Theorem ParsePriceString_european_swap_unreachable :
  (forall priceStr,
     strings.Contains (strings.Replace scraper.replacer priceStr) "," = false /\
     scraper.localize (strings.Replace scraper.replacer priceStr)
     = strings.Replace scraper.replacer priceStr) /\
  scraper.ParsePriceString "60,100" = Ok 60100%float /\
  scraper.ParsePriceString "29.99" = Ok 29.99%float /\
  scraper.ParsePriceString "1.234,56" = Ok 1.23456%float /\
  scraper.ParsePriceString "1.234,56" <> Ok 1234.56%float /\
  is_ok (scraper.ParsePriceString "1.234.567,89") = false.
Proof.
  split; [| split; [| split; [| split; [| split]]]].
  - intros priceStr. split.
    + apply Replace_from_no_comma.
    + apply localize_cleaned.
  - vm_compute. reflexivity.
  - vm_compute. reflexivity.
  - vm_compute. reflexivity.
  - intros H.
    apply (f_equal (fun r => match r with
                             | Ok p => (p <? 2)%float
                             | Err _ => false
                             end)) in H.
    vm_compute in H. discriminate H.
  - vm_compute. reflexivity.
Qed.

(** ** What [ParseFloat] rejects *)

Lemma Count_point_cons (c : ascii) (s : string) :
  strings.Count (String c s) "."
  = (if (c =? ".")%char then 1 else 0) + strings.Count s ".".
Proof.
  unfold strings.Count. cbn [strings.Count_from].
  unfold strings.HasPrefix.
  change (String.prefix "." (String c s))
    with (if ascii_dec "." c then String.prefix EmptyString s else false).
  destruct (ascii_dec "." c) as [<- | Hne].
  - destruct s; reflexivity.
  - replace (c =? ".")%char with false; [reflexivity |].
    symmetry. apply Ascii.eqb_neq. congruence.
Qed.

Lemma Count_point_nonneg (s : string) : 0 <= strings.Count s ".".
Proof.
  induction s as [| c s IH]; [reflexivity |].
  rewrite Count_point_cons. destruct (c =? ".")%char; lia.
Qed.















(** ** The sign of a number *)










(** ** Strings of digits, points and signs *)










(** ** [TruncateURL] *)

Lemma length_append (s t : string) :
  String.length (s ++ t) = (String.length s + String.length t)%nat.
Proof. induction s as [| c s IH]; simpl; [reflexivity | now rewrite IH]. Qed.

Lemma length_substring_0 (s : string) :
  forall n, (n <= String.length s)%nat -> String.length (String.substring 0 n s) = n.
Proof.
  induction s as [| c s IH]; intros [| n] Hn; simpl in *; try reflexivity; try lia.
  rewrite IH; [reflexivity | lia].
Qed.

Lemma prefix_substring_0 (s : string) :
  forall n, String.prefix (String.substring 0 n s) s = true.
Proof.
  induction s as [| c s IH]; intros [| n]; try reflexivity.
  cbn [String.substring String.prefix].
  destruct (ascii_dec c c) as [_ | Hne]; [apply IH | congruence].
Qed.

Lemma wrap_in_range (z : Z) :
  tracker.min_int <= z <= tracker.max_int -> tracker.wrap z = z.
Proof.
  unfold tracker.wrap, tracker.min_int, tracker.max_int. intros Hz.
  rewrite Z.mod_small; lia.
Qed.

Lemma wrap_below (z : Z) :
  tracker.min_int - 3 <= z < tracker.min_int -> tracker.wrap z = z + 2 ^ 64.
Proof.
  unfold tracker.wrap, tracker.min_int. intros Hz.
  replace (z - - 2 ^ 63) with ((z + 2 ^ 64 - - 2 ^ 63) + (-1) * 2 ^ 64) by lia.
  rewrite Z.mod_add by lia. rewrite Z.mod_small; lia.
Qed.

(** C9: [TruncateURL] returns a URL that fits unchanged; a longer one is cut
    to exactly [maxLen] bytes ending in three dots when [maxLen >= 3]; and
    for [maxLen < 3] the slice bound [maxLen-3] is out of range, so the call
    panics.  [maxLen] is any [int] and the URL any string that fits in
    memory. *)
Theorem TruncateURL_cases (urlStr : string) (maxLen : Z) :
  tracker.min_int <= maxLen <= tracker.max_int ->
  strings.len urlStr <= tracker.max_int - 3 ->
  (strings.len urlStr <= maxLen ->
     tracker.TruncateURL urlStr maxLen = Some urlStr) /\
  (maxLen < strings.len urlStr -> 3 <= maxLen ->
     exists head,
       tracker.TruncateURL urlStr maxLen = Some (head ++ "...")%string /\
       String.prefix head urlStr = true /\
       strings.len (head ++ "...") = maxLen) /\
  (maxLen < strings.len urlStr -> maxLen < 3 ->
     tracker.TruncateURL urlStr maxLen = None).
Proof.
  intros Hint Hlen. unfold tracker.TruncateURL.
  split; [| split].
  - intros Hfit. now rewrite (proj2 (Z.leb_le _ _) Hfit).
  - intros Hlong H3.
    rewrite (proj2 (Z.leb_gt _ _) Hlong).
    rewrite wrap_in_range by (unfold tracker.min_int, tracker.max_int in *; lia).
    rewrite (proj2 (Z.ltb_ge _ _)) by lia.
    rewrite (proj2 (Z.ltb_ge _ _)) by lia.
    cbn [orb].
    exists (String.substring 0 (Z.to_nat (maxLen - 3)) urlStr).
    split; [reflexivity | split].
    + apply prefix_substring_0.
    + unfold strings.len in *. rewrite length_append, length_substring_0 by lia.
      cbn [String.length]. lia.
  - intros Hlong H3.
    rewrite (proj2 (Z.leb_gt _ _) Hlong).
    destruct (Z_lt_le_dec (maxLen - 3) tracker.min_int) as [Hlow | Hin].
    + rewrite wrap_below by (unfold tracker.min_int in *; lia).
      rewrite (proj2 (Z.ltb_lt (strings.len urlStr) _));
        [now rewrite orb_true_r |].
      unfold tracker.min_int, tracker.max_int in *. lia.
    + rewrite wrap_in_range by (unfold tracker.min_int, tracker.max_int in *; lia).
      now rewrite (proj2 (Z.ltb_lt _ _)) by lia.
Qed.

Lemma TruncateURL_cases_witness :
  (tracker.TruncateURL "https://shop.example/item/42" 40
   = Some "https://shop.example/item/42"%string) /\
  (exists head,
     tracker.TruncateURL "https://shop.example/item/42" 12 = Some (head ++ "...")%string /\
     String.prefix head "https://shop.example/item/42" = true /\
     strings.len (head ++ "...") = 12) /\
  tracker.TruncateURL "https://shop.example/item/42" 2 = None.
Proof.
  split; [| split].
  - apply (TruncateURL_cases "https://shop.example/item/42" 40);
      vm_compute; try split; congruence.
  - apply (TruncateURL_cases "https://shop.example/item/42" 12);
      vm_compute; try split; congruence.
  - apply (TruncateURL_cases "https://shop.example/item/42" 2);
      vm_compute; try split; congruence.
Defined.

(** ** The selector search *)

Lemma trySelectors_firstSuccess (doc : scraper.Document) (selectors : list string) :
  scraper.trySelectors doc selectors
  = selector.firstSuccess doc (List.map selector.Generic selectors).
Proof.
  induction selectors as [| sel rest IH]; [reflexivity |].
  cbn [scraper.trySelectors List.map selector.firstSuccess].
  unfold selector.attempt. cbn [selector.matchedText selector.strategyId].
  destruct (scraper.isEmpty (scraper.priceText (doc sel))); cbn [negb].
  - exact IH.
  - destruct (scraper.ParsePriceString (scraper.priceText (doc sel))); [reflexivity | exact IH].
Qed.

Lemma scrapeDocument_extract (doc : scraper.Document) :
  scraper.scrapeDocument doc = selector.extract doc.
Proof.
  unfold scraper.scrapeDocument, selector.extract, selector.strategies.
  cbn [selector.firstSuccess]. unfold selector.attempt.
  cbn [selector.matchedText selector.strategyId].
  rewrite trySelectors_firstSuccess.
  destruct (scraper.isEmpty (scraper.amazonPriceText doc)); cbn [negb]; [reflexivity |].
  now destruct (scraper.ParsePriceString (scraper.amazonPriceText doc)).
Qed.

Lemma firstSuccess_at (doc : scraper.Document) (l : list selector.strategy) :
  forall (i : nat) (s : selector.strategy) (price : float),
    l !! i = Some s ->
    selector.attempt doc s = Some price ->
    (forall j s', (j < i)%nat -> l !! j = Some s' -> selector.attempt doc s' = None) ->
    selector.firstSuccess doc l = Ok (price, selector.strategyId s).
Proof.
  induction l as [| s0 l IH]; intros i s price Hi Hs Hbefore; [discriminate |].
  destruct i as [| i]; cbn [selector.firstSuccess].
  - injection Hi as ->. now rewrite Hs.
  - rewrite (Hbefore 0%nat s0) by (lia || reflexivity).
    apply (IH i); [exact Hi | exact Hs |].
    intros j s' Hj Hl. apply (Hbefore (S j) s'); [lia | exact Hl].
Qed.

(** C5: when the strategy at position [i] of the priority list (composite
    first, then the generic candidates in order) succeeds on a page, that
    is its matched text is not empty and the parser accepts it, and no
    strategy before it does, [ScrapePrice] returns the price and the
    identifier of that strategy, whatever the later strategies would find. *)
Theorem ScrapePrice_first_success
    (doc : scraper.Document) (status : string)
    (i : nat) (s : selector.strategy) (price : float) :
  selector.strategies !! i = Some s ->
  selector.attempt doc s = Some price ->
  (forall j s', (j < i)%nat -> selector.strategies !! j = Some s' ->
                selector.attempt doc s' = None) ->
  scraper.ScrapePrice (scraper.Response 200 status (Some doc))
  = Ok (price, selector.strategyId s)
  /\ scraper.ScrapePrice (scraper.Response 200 status (Some doc)) = selector.extract doc.
Proof.
  intros Hi Hs Hbefore.
  unfold scraper.ScrapePrice, scraper.withDocument. cbn [Z.eqb Pos.eqb negb].
  rewrite scrapeDocument_extract. split; [| reflexivity].
  unfold selector.extract. now apply (firstSuccess_at doc _ i).
Qed.

Lemma ScrapePrice_first_success_witness :
  scraper.ScrapePrice (sample.ok_page sample.several_prices)
  = Ok (18.5%float, ".a-offscreen"%string)
  /\ scraper.ScrapePrice (sample.ok_page sample.several_prices)
     = selector.extract sample.several_prices.
Proof.
  apply (ScrapePrice_first_success sample.several_prices "200 OK" 3
           (selector.Generic ".a-offscreen") 18.5%float).
  - reflexivity.
  - vm_compute. reflexivity.
  - intros j s' Hj Hl.
    destruct j as [| [| [| j]]]; [| | | lia];
      vm_compute in Hl; injection Hl as <-; vm_compute; reflexivity.
Defined.

(** C6: where a page has an element for the whole-number part, the text
    the composite strategy parses is that element's text, trimmed, without
    commas and without a final point, then a point, then the trimmed text of
    its first fraction sibling, or "00" when it has none; if the parser
    accepts it, [ScrapePrice] returns that price under the composite
    identifier. *)
Theorem ScrapePrice_composite
    (doc : scraper.Document) (status : string)
    (whole : scraper.Selection) (others : list scraper.Selection) (price : float) :
  doc ".a-price-whole"%string = whole :: others ->
  scraper.ParsePriceString
    (strings.TrimSuffix
       (strings.ReplaceAll (strings.TrimSpace (scraper.Text whole)) "," EmptyString) "."
     ++ "."
     ++ match scraper.Siblings_fraction whole with
        | [] => "00"
        | fraction :: _ => strings.TrimSpace fraction
        end)%string = Ok price ->
  scraper.ScrapePrice (scraper.Response 200 status (Some doc))
  = Ok (price, ".a-price-whole (composite)"%string).
Proof.
  intros Hfind Hparse.
  unfold scraper.ScrapePrice, scraper.withDocument. cbn [Z.eqb Pos.eqb negb].
  unfold scraper.scrapeDocument, scraper.amazonPriceText.
  rewrite Hfind.
  set (text := (_ ++ "." ++ _)%string) in *.
  assert (Hne : scraper.isEmpty text = false).
  { subst text.
    destruct (strings.TrimSuffix _ _); reflexivity. }
  rewrite Hne. cbn [negb]. now rewrite Hparse.
Qed.

Lemma ScrapePrice_composite_witness :
  scraper.ScrapePrice (sample.ok_page sample.split_price)
  = Ok (1234.99%float, ".a-price-whole (composite)"%string) /\
  scraper.ScrapePrice (sample.ok_page sample.whole_price)
  = Ok (1234%float, ".a-price-whole (composite)"%string).
Proof.
  split.
  - apply (ScrapePrice_composite sample.split_price "200 OK"
             {| scraper.Text := "1,234"; scraper.Attr_content := None;
                scraper.Siblings_fraction := ["99"%string] |} []);
      vm_compute; reflexivity.
  - apply (ScrapePrice_composite sample.whole_price "200 OK"
             (sample.element "1,234") []);
      vm_compute; reflexivity.
Defined.

(** ** Sending an alert to the clients *)

Section Broadcast.

Import main.

Variable alert : PriceAlert.

Lemma is_open_lookup (st : state) (c : client) :
  is_open st c = true ->
  exists ch, chans st !! c = Some ch /\ closed ch = false.
Proof.
  unfold is_open. destruct (chans st !! c) as [ch |]; [| discriminate].
  intros H. exists ch. split; [reflexivity |]. now destruct (closed ch).
Qed.

(** One iteration, on a client whose channel is open. *)
Lemma deliver_open (st : state) (c : client) (ch : chan) :
  chans st !! c = Some ch -> closed ch = false ->
  exists st',
    deliver alert st c = Some st' /\
    trackingItems st' = trackingItems st /\
    goroutines st' = goroutines st /\
    log st' = log st /\
    chans st' =
      <[c := if (length (buf ch) <? sendCap)%nat
             then {| buf := buf ch ++ [alert]; closed := false |}
             else {| buf := buf ch; closed := true |}]> (chans st) /\
    clients st' =
      (if (length (buf ch) <? sendCap)%nat then clients st else clients st ∖ {[c]}).
Proof.
  intros Hc Hopen. unfold deliver. rewrite Hc, Hopen.
  destruct (length (buf ch) <? sendCap)%nat; eexists; repeat split; reflexivity.
Qed.

(** The whole loop, for any order of visit without repetition over clients
    whose channels are open: it does not panic, it touches the channels of
    the visited clients only, and it removes exactly the visited clients
    whose queue was full. *)
Lemma broadcast_in_spec (order : list client) :
  forall st : state,
    NoDup order ->
    (forall c, c ∈ order -> is_open st c = true) ->
    exists st',
      broadcast_in order alert st = Some st' /\
      trackingItems st' = trackingItems st /\
      goroutines st' = goroutines st /\
      log st' = log st /\
      (forall c, c ∉ order -> chans st' !! c = chans st !! c) /\
      (forall c ch, c ∈ order -> chans st !! c = Some ch ->
         chans st' !! c =
           Some (if (length (buf ch) <? sendCap)%nat
                 then {| buf := buf ch ++ [alert]; closed := false |}
                 else {| buf := buf ch; closed := true |})) /\
      (forall c, c ∈ clients st' <->
                 c ∈ clients st /\ ~ (c ∈ order /\ is_full st c = true)).
Proof.
  induction order as [| c rest IH]; intros st Hnd Hopen.
  - exists st. cbn [broadcast_in].
    split; [reflexivity |]. split; [reflexivity |]. split; [reflexivity |].
    split; [reflexivity |]. split; [reflexivity |]. split.
    + intros c ch Hin. now apply elem_of_nil in Hin.
    + intros c. split.
      * intros H. split; [exact H |]. intros [Hin _]. now apply elem_of_nil in Hin.
      * now intros [H _].
  - apply NoDup_cons in Hnd as [Hc Hnd].
    destruct (is_open_lookup st c) as (ch & Hch & Hcl).
    { apply Hopen. left. }
    destruct (deliver_open st c ch Hch Hcl)
      as (st1 & Hd & Hti1 & Hgo1 & Hlog1 & Hchans1 & Hcl1).
    assert (Hother : forall c', c' ≠ c -> chans st1 !! c' = chans st !! c').
    { intros c' Hne. rewrite Hchans1. now apply lookup_insert_ne. }
    destruct (IH st1 Hnd) as (st' & Hb & Hti & Hgo & Hlog & Hout & Hin & Hcs).
    { intros c' Hc'. unfold is_open. rewrite Hother.
      - apply Hopen. now right.
      - intros ->. contradiction. }
    exists st'. cbn [broadcast_in]. rewrite Hd.
    split; [exact Hb |]. split; [congruence |]. split; [congruence |].
    split; [congruence |]. split; [| split].
    + intros c' Hc'. apply not_elem_of_cons in Hc' as [Hne Hc'].
      rewrite Hout by exact Hc'. now apply Hother.
    + intros c' ch' Hc' Hch'. apply elem_of_cons in Hc' as [-> | Hc'].
      * assert (ch' = ch) as -> by congruence.
        rewrite Hout by exact Hc. rewrite Hchans1. apply lookup_insert_eq.
      * apply Hin; [exact Hc' |]. rewrite Hother; [exact Hch' |].
        intros ->. contradiction.
    + intros c'. rewrite Hcs, Hcl1.
      assert (Hfull : is_full st c = negb (length (buf ch) <? sendCap)%nat).
      { unfold is_full, queue. rewrite Hch.
        destruct (Nat.ltb_spec (length (buf ch)) sendCap) as [Hlt | Hge]; cbn [negb].
        - apply Nat.leb_gt. exact Hlt.
        - apply Nat.leb_le. exact Hge. }
      assert (Hsame : forall c'', c'' ≠ c -> is_full st1 c'' = is_full st c'').
      { intros c'' Hne. unfold is_full, queue. now rewrite Hother. }
      destruct (decide (c' = c)) as [-> | Hne].
      * destruct (length (buf ch) <? sendCap)%nat; cbn [negb] in Hfull.
        -- split.
           ++ intros [H _]. split; [exact H |]. intros [_ Hf]. congruence.
           ++ intros [H _]. split; [exact H |]. intros [Hr _]. contradiction.
        -- split.
           ++ intros [H _]. apply elem_of_difference in H as [_ H].
              exfalso. apply H. now apply elem_of_singleton.
           ++ intros [_ H]. exfalso. apply H. split; [left | exact Hfull].
      * rewrite (Hsame c' Hne). split.
        -- intros [H Hn]. split.
           ++ destruct (length (buf ch) <? sendCap)%nat; [exact H |].
              now apply elem_of_difference in H as [H _].
           ++ intros [Hc' Hf]. apply Hn. split; [| exact Hf].
              apply elem_of_cons in Hc' as [-> | Hc']; [contradiction | exact Hc'].
        -- intros [H Hn]. split.
           ++ destruct (length (buf ch) <? sendCap)%nat; [exact H |].
              apply elem_of_difference. split; [exact H |].
              intros Hs. apply elem_of_singleton in Hs. contradiction.
           ++ intros [Hc' Hf]. apply Hn. split; [now right | exact Hf].
Qed.

(** The order of the visit does not matter: every order over the clients
    gives the state that [broadcast] gives. *)
Lemma broadcast_in_any_order (st : state) (order : list client) :
  NoDup order ->
  (forall c, c ∈ order <-> c ∈ clients st) ->
  (forall c, c ∈ clients st -> is_open st c = true) ->
  broadcast_in order alert st = broadcast alert st.
Proof.
  intros Hnd Horder Hopen. unfold broadcast.
  destruct (broadcast_in_spec order st Hnd)
    as (st1 & -> & Hti1 & Hgo1 & Hlog1 & Hout1 & Hin1 & Hcs1).
  { intros c Hc. apply Hopen, Horder, Hc. }
  destruct (broadcast_in_spec (elements (clients st)) st (NoDup_elements _))
    as (st2 & -> & Hti2 & Hgo2 & Hlog2 & Hout2 & Hin2 & Hcs2).
  { intros c Hc. apply Hopen. now apply elem_of_elements in Hc. }
  f_equal.
  assert (Hchans : chans st1 = chans st2).
  { apply map_eq. intros c.
    destruct (decide (c ∈ clients st)) as [Hc | Hc].
    - destruct (is_open_lookup st c (Hopen c Hc)) as (ch & Hch & _).
      rewrite (Hin1 c ch), (Hin2 c ch); auto.
      + now apply elem_of_elements.
      + now apply Horder.
    - rewrite Hout1, Hout2; auto.
      + now rewrite elem_of_elements.
      + now rewrite Horder. }
  assert (Hclients : clients st1 = clients st2).
  { apply set_eq. intros c. rewrite Hcs1, Hcs2, Horder, elem_of_elements.
    reflexivity. }
  destruct st1, st2. cbn in *. congruence.
Qed.

(** C7: among the clients of a state, all with open channels, let exactly
    one, [full], have a full queue.  Then the loop, in whatever order it
    visits the clients, returns (no send blocks, nothing panics), appends
    the alert to the queue of each of the other clients, which stay
    registered, closes the channel of [full] without changing its queue,
    and removes [full] and nobody else from [clients]. *)
Theorem broadcast_with_one_full_queue
    (st : state) (order : list client) (full : client) :
  NoDup order ->
  (forall c, c ∈ order <-> c ∈ clients st) ->
  (forall c, c ∈ clients st -> is_open st c = true) ->
  full ∈ clients st ->
  (forall c, c ∈ clients st -> (is_full st c = true <-> c = full)) ->
  exists st',
    broadcast_in order alert st = Some st' /\
    clients st' = clients st ∖ {[full]} /\
    (size (clients st') + 1 = size (clients st))%nat /\
    (forall c, c ∈ clients st -> c ≠ full ->
       c ∈ clients st' /\ queue st' c = queue st c ++ [alert] /\ is_open st' c = true) /\
    queue st' full = queue st full /\
    is_open st' full = false /\
    trackingItems st' = trackingItems st.
Proof.
  intros Hnd Horder Hopen Hfull Hone.
  destruct (broadcast_in_spec order st Hnd) as (st' & Hb & Hti & _ & _ & _ & Hin & Hcs).
  { intros c Hc. apply Hopen, Horder, Hc. }
  assert (Hset : clients st' = clients st ∖ {[full]}).
  { apply set_eq. intros c. rewrite Hcs, elem_of_difference, elem_of_singleton.
    split.
    - intros [Hc Hn]. split; [exact Hc |]. intros ->. apply Hn.
      split; [now apply Horder | now apply Hone].
    - intros [Hc Hne]. split; [exact Hc |]. intros [_ Hf]. now apply Hone in Hf. }
  assert (Hroom : forall c ch, c ∈ clients st -> chans st !! c = Some ch ->
                    (length (buf ch) <? sendCap)%nat = negb (is_full st c)).
  { intros c ch Hc Hch. unfold is_full, queue. rewrite Hch.
    destruct (Nat.ltb_spec (length (buf ch)) sendCap) as [Hlt | Hge]; cbn [negb].
    - symmetry. apply negb_true_iff, Nat.leb_gt. exact Hlt.
    - symmetry. apply negb_false_iff, Nat.leb_le. exact Hge. }
  exists st'. split; [exact Hb |]. split; [exact Hset |]. split; [| split; [| split; [| split]]].
  - rewrite Hset, size_difference by (now apply singleton_subseteq_l).
    rewrite size_singleton.
    assert (size (clients st) ≠ 0)%nat; [| lia].
    intros Hz. apply size_empty_inv in Hz. now apply Hz in Hfull.
  - intros c Hc Hne.
    destruct (is_open_lookup st c (Hopen c Hc)) as (ch & Hch & Hcl).
    assert (Hnf : is_full st c = false).
    { destruct (is_full st c) eqn:E; [| reflexivity]. now apply Hone in E. }
    pose proof (Hin c ch (proj2 (Horder c) Hc) Hch) as Hch'.
    rewrite (Hroom c ch Hc Hch), Hnf in Hch'. cbn [negb] in Hch'.
    split; [| split].
    + rewrite Hset. apply elem_of_difference. split; [exact Hc |].
      intros Hs. now apply elem_of_singleton in Hs.
    + unfold queue. now rewrite Hch', Hch.
    + unfold is_open. now rewrite Hch'.
  - destruct (is_open_lookup st full (Hopen full Hfull)) as (ch & Hch & Hcl).
    pose proof (Hin full ch (proj2 (Horder full) Hfull) Hch) as Hch'.
    rewrite (Hroom full ch Hfull Hch), (proj2 (Hone full Hfull) eq_refl) in Hch'.
    cbn [negb] in Hch'. unfold queue. now rewrite Hch', Hch.
  - destruct (is_open_lookup st full (Hopen full Hfull)) as (ch & Hch & Hcl).
    pose proof (Hin full ch (proj2 (Horder full) Hfull) Hch) as Hch'.
    rewrite (Hroom full ch Hfull Hch), (proj2 (Hone full Hfull) eq_refl) in Hch'.
    cbn [negb] in Hch'. unfold is_open. now rewrite Hch'.
  - exact Hti.
Qed.

End Broadcast.

Lemma broadcast_with_one_full_queue_witness :
  exists st',
    main.broadcast_in [2; 3; 1]%positive sample.alertA sample.three_clients = Some st' /\
    main.clients st' = main.clients sample.three_clients ∖ {[2%positive]} /\
    (size (main.clients st') + 1 = size (main.clients sample.three_clients))%nat /\
    (forall c, c ∈ main.clients sample.three_clients -> c ≠ 2%positive ->
       c ∈ main.clients st' /\
       main.queue st' c = main.queue sample.three_clients c ++ [sample.alertA] /\
       main.is_open st' c = true) /\
    main.queue st' 2%positive = main.queue sample.three_clients 2%positive /\
    main.is_open st' 2%positive = false /\
    main.trackingItems st' = main.trackingItems sample.three_clients.
Proof.
  apply (broadcast_with_one_full_queue sample.alertA sample.three_clients
           [2; 3; 1]%positive 2%positive).
  - apply (bool_decide_unpack _). vm_compute. exact I.
  - intros c. cbn [sample.three_clients main.clients].
    rewrite !elem_of_cons, elem_of_nil, !elem_of_union, !elem_of_singleton. tauto.
  - intros c Hc. cbn [sample.three_clients main.clients] in Hc.
    rewrite !elem_of_union, !elem_of_singleton in Hc.
    destruct Hc as [[-> | ->] | ->]; vm_compute; reflexivity.
  - cbn [sample.three_clients main.clients].
    rewrite !elem_of_union, !elem_of_singleton. tauto.
  - intros c Hc. cbn [sample.three_clients main.clients] in Hc.
    rewrite !elem_of_union, !elem_of_singleton in Hc.
    destruct Hc as [[-> | ->] | ->]; vm_compute; split; congruence.
Defined.

(** ** The track and check handlers *)

Lemma float_pos_not_le_0 (x : float) :
  (0 <? x)%float = true -> (x <=? 0)%float = false.
Proof.
  rewrite ltb_spec, leb_spec. unfold SFltb, SFleb.
  change (Prim2SF 0) with (S754_zero false).
  destruct (Prim2SF x) as [s | s | | s m e]; cbn; try discriminate;
    destruct s; cbn; try discriminate; reflexivity.
Qed.

(** C2 (as stated, refuted): "A" is tracked with a target of 100; a second
    track request for "A", with another URL and a target of 50, is answered
    with success and replaces the item. *)
Lemma trackPriceHandler_overwrites_duplicate :
  main.trackingItems sample.three_clients !! "A"%string = Some sample.itemA /\
  main.track_success (fst (main.trackPriceHandler sample.itemA' sample.three_clients)) = true /\
  main.trackingItems (snd (main.trackPriceHandler sample.itemA' sample.three_clients))
    !! "A"%string = Some sample.itemA' /\
  String.eqb (main.URL sample.itemA) (main.URL sample.itemA') = false.
Proof.
  split; [| split; [| split]]; vm_compute; reflexivity.
Qed.

(** C2 (amended): a track request with a URL, an id and a target that is
    not [<= 0] always succeeds, whether the id is tracked already or not: the
    request itself (URL, target price, id) becomes the item stored under its
    id, in place of any item that was there, and nothing else changes. *)
Theorem trackPriceHandler_stores_request (req : main.TrackingRequest) (st : main.state) :
  scraper.isEmpty (main.URL req) = false ->
  scraper.isEmpty (main.ID req) = false ->
  (main.TargetPrice req <=? 0)%float = false ->
  main.track_success (fst (main.trackPriceHandler req st)) = true /\
  main.trackingItems (snd (main.trackPriceHandler req st)) !! main.ID req = Some req /\
  (forall id, id ≠ main.ID req ->
     main.trackingItems (snd (main.trackPriceHandler req st)) !! id
     = main.trackingItems st !! id) /\
  main.clients (snd (main.trackPriceHandler req st)) = main.clients st /\
  main.chans (snd (main.trackPriceHandler req st)) = main.chans st /\
  main.goroutines (snd (main.trackPriceHandler req st)) = main.goroutines st.
Proof.
  intros Hurl Hid Htarget. unfold main.trackPriceHandler.
  rewrite Hurl, Hid, Htarget. cbn.
  split; [reflexivity |]. split; [apply lookup_insert_eq |].
  split; [| repeat split].
  intros id Hne. apply lookup_insert_ne. congruence.
Qed.

Lemma trackPriceHandler_stores_request_witness :
  main.track_success (fst (main.trackPriceHandler sample.itemA' sample.three_clients)) = true /\
  main.trackingItems (snd (main.trackPriceHandler sample.itemA' sample.three_clients))
    !! main.ID sample.itemA' = Some sample.itemA' /\
  (forall id, id ≠ main.ID sample.itemA' ->
     main.trackingItems (snd (main.trackPriceHandler sample.itemA' sample.three_clients)) !! id
     = main.trackingItems sample.three_clients !! id) /\
  main.clients (snd (main.trackPriceHandler sample.itemA' sample.three_clients))
  = main.clients sample.three_clients /\
  main.chans (snd (main.trackPriceHandler sample.itemA' sample.three_clients))
  = main.chans sample.three_clients /\
  main.goroutines (snd (main.trackPriceHandler sample.itemA' sample.three_clients))
  = main.goroutines sample.three_clients.
Proof.
  apply (trackPriceHandler_stores_request sample.itemA' sample.three_clients);
    vm_compute; reflexivity.
Defined.

(** C10: a check-price request with a URL and a positive target whose
    scrape gives a price [<=] the target starts one goroutine and changes
    nothing else: the tracked items stay as they are.  Whenever that
    goroutine runs, among clients with open channels, it does not panic,
    leaves the tracked items alone again, and offers one alert, whose id is
    "check-" followed by the Unix time of the request, to every client
    registered then: it is appended to each queue that has room, and a
    client whose queue is full is dropped, as in every broadcast. *)
Theorem checkPriceHandler_alerts_without_tracking
    (req : main.PriceCheckRequest) (v : main.visit) (now : main.time) (st : main.state)
    (priceString : string) (currentPrice : float) :
  scraper.isEmpty (main.check_URL req) = false ->
  (0 <? main.check_TargetPrice req)%float = true ->
  main.scrapePrice v = Ok (priceString, currentPrice) ->
  (currentPrice <=? main.check_TargetPrice req)%float = true ->
  let id := ("check-" ++ NilZero.string_of_int (Z.to_int (main.Unix now)))%string in
  let st1 := snd (main.checkPriceHandler req v now st) in
  main.trackingItems st1 = main.trackingItems st /\
  main.clients st1 = main.clients st /\
  main.chans st1 = main.chans st /\
  main.goroutines st1
  = main.goroutines st ++ [main.immediateAlert id req currentPrice priceString] /\
  forall (now' : main.time) (st2 : main.state),
    (forall c, c ∈ main.clients st2 -> main.is_open st2 c = true) ->
    exists st3,
      main.runImmediateAlert id req currentPrice priceString now' st2 = Some st3 /\
      main.trackingItems st3 = main.trackingItems st2 /\
      forall c, c ∈ main.clients st2 ->
        if main.is_full st2 c then c ∉ main.clients st3
        else c ∈ main.clients st3 /\
             main.queue st3 c =
               main.queue st2 c ++
                 [ {| main.alert_ID := id;
                      main.alert_URL := main.check_URL req;
                      main.alert_CurrentPrice := currentPrice;
                      main.alert_TargetPrice := main.check_TargetPrice req;
                      main.alert_PriceString := priceString;
                      main.alert_Timestamp := main.RFC3339 now' |} ].
Proof.
  intros Hurl Htarget Hscrape Hbelow id st1.
  assert (Hst1 : st1 = main.set_goroutines st
                   (main.goroutines st ++
                      [main.immediateAlert id req currentPrice priceString])).
  { subst st1. unfold main.checkPriceHandler.
    rewrite Hurl, (float_pos_not_le_0 _ Htarget), Hscrape, Hbelow. reflexivity. }
  rewrite Hst1. cbn [main.set_goroutines main.trackingItems main.clients
                       main.chans main.goroutines].
  split; [reflexivity |]. split; [reflexivity |]. split; [reflexivity |].
  split; [reflexivity |].
  intros now' st2 Hopen. unfold main.runImmediateAlert, main.broadcast.
  set (alert := {| main.alert_ID := id |}).
  destruct (broadcast_in_spec alert (elements (main.clients st2)) st2)
    as (st3 & Hb & Hti & _ & _ & _ & Hin & Hcs).
  { apply NoDup_elements. }
  { intros c Hc. apply Hopen. now apply elem_of_elements in Hc. }
  rewrite Hb. eexists. split; [reflexivity |].
  cbn [main.add_log main.trackingItems main.clients main.chans].
  split; [exact Hti |].
  intros c Hc.
  assert (Hel : c ∈ elements (main.clients st2)) by now apply elem_of_elements.
  destruct (is_open_lookup st2 c (Hopen c Hc)) as (ch & Hch & Hcl).
  destruct (main.is_full st2 c) eqn:Hfull.
  - rewrite Hcs. intros [_ Hn]. apply Hn. split; [exact Hel | exact Hfull].
  - split.
    + apply Hcs. split; [exact Hc |]. intros [_ Hf]. congruence.
    + pose proof (Hin c ch Hel Hch) as Hch'.
      unfold main.is_full, main.queue in Hfull. rewrite Hch in Hfull.
      apply Nat.leb_gt in Hfull. apply Nat.ltb_lt in Hfull.
      rewrite Hfull in Hch'. unfold main.queue.
      cbn [main.add_log main.chans]. now rewrite Hch', Hch.
Qed.

Lemma checkPriceHandler_alerts_without_tracking_witness :
  let id := "check-1762084800"%string in
  let st1 := snd (main.checkPriceHandler sample.one_shot
                    (main.Visited ["60,100"%string]) sample.noon main.init) in
  main.trackingItems st1 = main.trackingItems main.init /\
  main.clients st1 = main.clients main.init /\
  main.chans st1 = main.chans main.init /\
  main.goroutines st1
  = main.goroutines main.init ++
      [main.immediateAlert id sample.one_shot 60100%float "60,100"] /\
  forall (now' : main.time) (st2 : main.state),
    (forall c, c ∈ main.clients st2 -> main.is_open st2 c = true) ->
    exists st3,
      main.runImmediateAlert id sample.one_shot 60100%float "60,100" now' st2 = Some st3 /\
      main.trackingItems st3 = main.trackingItems st2 /\
      forall c, c ∈ main.clients st2 ->
        if main.is_full st2 c then c ∉ main.clients st3
        else c ∈ main.clients st3 /\
             main.queue st3 c =
               main.queue st2 c ++
                 [ {| main.alert_ID := id;
                      main.alert_URL := main.check_URL sample.one_shot;
                      main.alert_CurrentPrice := 60100%float;
                      main.alert_TargetPrice := main.check_TargetPrice sample.one_shot;
                      main.alert_PriceString := "60,100";
                      main.alert_Timestamp := main.RFC3339 now' |} ].
Proof.
  apply (checkPriceHandler_alerts_without_tracking sample.one_shot
           (main.Visited ["60,100"%string]) sample.noon main.init
           "60,100" 60100%float);
    vm_compute; reflexivity.
Defined.

(** ** Runs of the server *)

Section Runs.

Import main.

Lemma omap_sublist {A B : Type} (f : A -> option B) (l1 l2 : list A) :
  l1 `sublist_of` l2 -> omap f l1 `sublist_of` omap f l2.
Proof.
  induction 1 as [| x l1 l2 _ IH | x l1 l2 _ IH]; cbn [omap list_omap].
  - constructor.
  - destruct (f x); [now apply sublist_skip | exact IH].
  - destruct (f x); [now apply sublist_cons | exact IH].
Qed.

Lemma omap_delete_sublist {A B : Type} (f : A -> option B) (l : list A) (g : nat) :
  omap f (delete g l) `sublist_of` omap f l.
Proof. apply omap_sublist, sublist_delete. Qed.

Lemma omap_insert_sublist {A B : Type} (f : A -> option B) (l : list A) :
  forall (g : nat) (x y : A),
    l !! g = Some x -> f y = f x \/ f y = None ->
    omap f (<[g := y]> l) `sublist_of` omap f l.
Proof.
  induction l as [| a l IH]; intros g x y Hg Hf; [discriminate |].
  destruct g as [| g].
  - injection Hg as ->. cbn [insert list_insert omap list_omap].
    destruct Hf as [-> | ->]; [reflexivity |].
    destruct (f x); [now apply sublist_cons | reflexivity].
  - cbn [insert list_insert omap list_omap].
    destruct (f a);
      [apply sublist_skip | ]; now apply (IH g x y).
Qed.

Lemma deliver_frame (alert : PriceAlert) (st st' : state) (c : client) :
  deliver alert st c = Some st' ->
  trackingItems st' = trackingItems st /\
  goroutines st' = goroutines st /\
  log st' = log st.
Proof.
  unfold deliver. destruct (chans st !! c) as [ch |]; [| discriminate].
  destruct (closed ch); [discriminate |].
  destruct (length (buf ch) <? sendCap)%nat; intros [= <-]; repeat split.
Qed.

Lemma broadcast_in_frame (alert : PriceAlert) (order : list client) :
  forall st st',
    broadcast_in order alert st = Some st' ->
    trackingItems st' = trackingItems st /\
    goroutines st' = goroutines st /\
    log st' = log st.
Proof.
  induction order as [| c rest IH]; intros st st' Hb; cbn [broadcast_in] in Hb.
  - injection Hb as <-. repeat split.
  - destruct (deliver alert st c) as [st1 |] eqn:Hd; [| discriminate].
    apply deliver_frame in Hd as (Hti & Hgo & Hlog).
    apply IH in Hb as (Hti' & Hgo' & Hlog').
    split; [| split]; congruence.
Qed.

(** What one step does to the tracked items, the goroutines and the log. *)
Lemma step_effect (st : state) (ev : event) (st' : state) :
  step st ev = Ok st' ->
  match ev with
  | TrackPrice req =>
      goroutines st' = goroutines st /\ log st' = log st /\
      (trackingItems st' = trackingItems st \/
       trackingItems st' = <[ID req := req]> (trackingItems st))
  | UntrackPrice id =>
      goroutines st' = goroutines st /\ log st' = log st /\
      trackingItems st' = delete id (trackingItems st)
  | CheckPrice _ _ _ | Connect =>
      trackingItems st' = trackingItems st /\ log st' = log st /\
      exists extra, goroutines st' = goroutines st ++ extra /\
                    omap checkId extra = []
  | Tick =>
      trackingItems st' = trackingItems st /\ log st' = log st /\
      goroutines st' = goroutines st ++ launched st
  | Scraped g v now =>
      exists id item,
        goroutines st !! g = Some (checkAndNotify id item) /\
        trackingItems st' = trackingItems st /\
        ((goroutines st' = <[g := checkAndNotify_delete id]> (goroutines st) /\
          log st' = log st ++ [LogPriceAlertSent id] /\
          exists priceString price,
            scrapePrice v = Ok (priceString, price) /\
            (price <=? TargetPrice item)%float = true) \/
         (goroutines st' = delete g (goroutines st) /\ log st' = log st))
  | Remove g =>
      exists id,
        goroutines st !! g = Some (checkAndNotify_delete id) /\
        trackingItems st' = delete id (trackingItems st) /\
        goroutines st' = delete g (goroutines st) /\
        log st' = log st ++ [LogStoppedMonitoring id]
  | Immediate g now =>
      exists tempID req price priceString,
        goroutines st !! g = Some (immediateAlert tempID req price priceString) /\
        trackingItems st' = trackingItems st /\
        goroutines st' = delete g (goroutines st) /\
        log st' = log st ++ [LogImmediateAlertSent (check_URL req)]
  | Pump g _ =>
      exists c,
        goroutines st !! g = Some (writePump c) /\
        trackingItems st' = trackingItems st /\ log st' = log st /\
        (goroutines st' = goroutines st \/ goroutines st' = delete g (goroutines st))
  end.
Proof.
  destruct ev as [req | id | req v now | | | g v now | g | g now | g w];
    cbn [step]; intros Hstep.
  - injection Hstep as <-. unfold trackPriceHandler.
    destruct (_ || _ || _); cbn; auto.
  - injection Hstep as <-. cbn. auto.
  - injection Hstep as <-. unfold checkPriceHandler.
    destruct (_ || _); cbn [snd].
    { split; [reflexivity |]. split; [reflexivity |].
      exists []. now rewrite app_nil_r. }
    destruct (scrapePrice v) as [[priceString price] | err]; cbn [snd].
    + destruct (price <=? check_TargetPrice req)%float; cbn [snd].
      * split; [reflexivity |]. split; [reflexivity |]. eexists. split; reflexivity.
      * split; [reflexivity |]. split; [reflexivity |].
        exists []. now rewrite app_nil_r.
    + split; [reflexivity |]. split; [reflexivity |].
      exists []. now rewrite app_nil_r.
  - injection Hstep as <-. unfold handleWebSocket. cbn.
    split; [reflexivity |]. split; [reflexivity |]. eexists. split; reflexivity.
  - injection Hstep as <-. cbn. auto.
  - destruct (goroutines st !! g) as [[id item | | |] |] eqn:Hg; try discriminate.
    exists id, item. split; [reflexivity |].
    unfold checkAndNotify_scraped in Hstep.
    destruct (scrapePrice v) as [[priceString price] | err].
    + destruct (price <=? TargetPrice item)%float eqn:Hle.
      * destruct (broadcast _ st) as [st1 |] eqn:Hb; [| discriminate].
        injection Hstep as <-.
        apply broadcast_in_frame in Hb as (Hti & Hgo & Hlog). cbn.
        split; [exact Hti |]. left. rewrite Hgo, Hlog.
        split; [reflexivity |]. split; [reflexivity |]. eauto.
      * injection Hstep as <-. cbn. auto.
    + injection Hstep as <-. cbn. auto.
  - destruct (goroutines st !! g) as [[| id | |] |] eqn:Hg; try discriminate.
    injection Hstep as <-. exists id. cbn. auto.
  - destruct (goroutines st !! g) as [[| | tempID req price priceString |] |] eqn:Hg;
      try discriminate.
    unfold runImmediateAlert in Hstep.
    destruct (broadcast _ st) as [st1 |] eqn:Hb; [| discriminate].
    injection Hstep as <-.
    apply broadcast_in_frame in Hb as (Hti & Hgo & Hlog).
    exists tempID, req, price, priceString. cbn. rewrite Hgo, Hlog. auto.
  - destruct (goroutines st !! g) as [[| | | c] |] eqn:Hg; try discriminate.
    exists c. split; [reflexivity |].
    unfold writePump_step in Hstep.
    destruct (chans st !! c) as [ch |]; [| discriminate].
    destruct (buf ch) as [| a rest].
    + destruct (closed ch); [| discriminate].
      injection Hstep as <-. cbn. auto.
    + destruct w; injection Hstep as <-; cbn; auto.
Qed.

Lemma launched_checkId (st : state) :
  omap checkId (launched st) = (map_to_list (trackingItems st)).*1.
Proof.
  unfold launched. induction (map_to_list (trackingItems st)) as [| e l IH];
    [reflexivity |].
  cbn [List.map omap list_omap checkId fmap list_fmap]. now rewrite IH.
Qed.

Lemma launched_scrapingId (st : state) :
  omap scrapingId (launched st) = (map_to_list (trackingItems st)).*1.
Proof.
  unfold launched. induction (map_to_list (trackingItems st)) as [| e l IH];
    [reflexivity |].
  cbn [List.map omap list_omap scrapingId fmap list_fmap]. now rewrite IH.
Qed.

Lemma elem_of_keys (m : gmap string TrackingRequest) (id : string) :
  id ∈ (map_to_list m).*1 <-> is_Some (m !! id).
Proof.
  rewrite list_elem_of_fmap. split.
  - intros ([id' item] & -> & Hin). apply elem_of_map_to_list in Hin. eauto.
  - intros [item Hitem]. exists (id, item). split; [reflexivity |].
    now apply elem_of_map_to_list.
Qed.

(** Only a tick adds checks; every other step removes some or none. *)
Lemma step_inFlight (st : state) (ev : event) (st' : state) :
  step st ev = Ok st' ->
  match ev with
  | Tick => inFlight st' = inFlight st ++ (map_to_list (trackingItems st)).*1
  | _ => inFlight st' `sublist_of` inFlight st
  end.
Proof.
  intros Hstep. apply step_effect in Hstep. unfold inFlight.
  destruct ev as [req | id | req v now | | | g v now | g | g now | g w].
  - destruct Hstep as (-> & _). reflexivity.
  - destruct Hstep as (-> & _). reflexivity.
  - destruct Hstep as (_ & _ & extra & -> & Hextra).
    rewrite omap_app, Hextra, app_nil_r. reflexivity.
  - destruct Hstep as (_ & _ & extra & -> & Hextra).
    rewrite omap_app, Hextra, app_nil_r. reflexivity.
  - destruct Hstep as (_ & _ & ->). now rewrite omap_app, launched_checkId.
  - destruct Hstep as (id & item & Hg & _ & [(-> & _) | (-> & _)]).
    + apply (omap_insert_sublist checkId _ g _ _ Hg). now left.
    + apply omap_delete_sublist.
  - destruct Hstep as (id & _ & _ & -> & _). apply omap_delete_sublist.
  - destruct Hstep as (? & ? & ? & ? & _ & _ & -> & _). apply omap_delete_sublist.
  - destruct Hstep as (c & _ & _ & _ & [-> | ->]);
      [reflexivity | apply omap_delete_sublist].
Qed.

(** C8 (amended): a tick starts exactly one check for every tracked id, and
    nothing else starts checks.  Hence, over every run in which each tick
    comes after the checks of the earlier ticks are over, no two checks of
    the same id are in flight at any time.  Nothing keeps a tick from coming
    earlier; then it starts a second check for every id still tracked. *)
Theorem checks_distinct_when_spaced (evs : list event) :
  forall st st' : state,
    NoDup (inFlight st) ->
    spaced st evs = true ->
    run st evs = Ok st' ->
    NoDup (inFlight st') /\
    NoDup (omap checkId (launched st')) /\
    (forall id, id ∈ omap checkId (launched st') <-> is_Some (trackingItems st' !! id)) /\
    inFlight (tick st') = inFlight st' ++ omap checkId (launched st').
Proof.
  induction evs as [| ev rest IH]; intros st st' Hnd Hsp Hrun.
  - injection Hrun as <-. split; [exact Hnd |].
    rewrite launched_checkId. split; [apply NoDup_fst_map_to_list |].
    split; [apply elem_of_keys |].
    unfold inFlight, tick. cbn. now rewrite omap_app, launched_checkId.
  - cbn [run] in Hrun. cbn [spaced] in Hsp.
    destruct (step st ev) as [st1 | f] eqn:Hstep; [| discriminate].
    apply andb_true_iff in Hsp as [Hquiet Hsp].
    apply (IH st1 st'); [| exact Hsp | exact Hrun].
    pose proof (step_inFlight st ev st1 Hstep) as Hin.
    destruct ev; try (now apply (sublist_NoDup _ _ Hnd)).
    destruct (inFlight st); [| discriminate].
    rewrite Hin. cbn [app]. apply NoDup_fst_map_to_list.
Qed.

Lemma full_no_room (st : state) (c : client) (ch : chan) :
  chans st !! c = Some ch ->
  is_full st c = negb (length (buf ch) <? sendCap)%nat.
Proof.
  intros Hch. unfold is_full, queue. rewrite Hch.
  destruct (Nat.ltb_spec (length (buf ch)) sendCap) as [Hlt | Hge]; cbn [negb].
  - now apply Nat.leb_gt.
  - now apply Nat.leb_le.
Qed.

Lemma alertsFor_app (id : string) (l1 l2 : list logline) :
  alertsFor id (l1 ++ l2) = (alertsFor id l1 + alertsFor id l2)%nat.
Proof.
  induction l1 as [| [id' | url | id'] l1 IH]; cbn [app alertsFor];
    [reflexivity | | exact IH | exact IH].
  rewrite IH. lia.
Qed.

(** While an id is neither tracked nor being scraped for, and is not
    tracked again, no alert is sent for it. *)
Lemma no_alert_while_untracked (id : string) (evs : list event) :
  forall st st' : state,
    trackingItems st !! id = None ->
    id ∉ scraping st ->
    tracks id evs = false ->
    run st evs = Ok st' ->
    alertsFor id (log st') = alertsFor id (log st) /\
    trackingItems st' !! id = None /\
    id ∉ scraping st'.
Proof.
  induction evs as [| ev rest IH]; intros st st' Hnone Hscr Htr Hrun.
  - injection Hrun as <-. auto.
  - cbn [run] in Hrun.
    destruct (step st ev) as [st1 | f] eqn:Hstep; [| discriminate].
    cbn [tracks existsb] in Htr. apply orb_false_iff in Htr as [Hev Htr].
    assert (H1 : alertsFor id (log st1) = alertsFor id (log st) /\
                 trackingItems st1 !! id = None /\
                 id ∉ scraping st1).
    { apply step_effect in Hstep. unfold scraping in *.
      destruct ev as [req | id' | req v now | | | g v now | g | g now | g w].
      - destruct Hstep as (-> & -> & Hti). split; [reflexivity |].
        split; [| exact Hscr].
        destruct Hti as [-> | ->]; [exact Hnone |].
        rewrite lookup_insert_ne; [exact Hnone |].
        now apply String.eqb_neq in Hev.
      - destruct Hstep as (-> & -> & ->). split; [reflexivity |].
        split; [| exact Hscr]. apply lookup_delete_None. now right.
      - destruct Hstep as (-> & -> & extra & -> & Hextra).
        split; [reflexivity |]. split; [exact Hnone |].
        rewrite omap_app. intros Hin. apply elem_of_app in Hin as [Hin | Hin];
          [contradiction |].
        apply list_elem_of_omap in Hin as (x & Hx & Hid).
        assert (Hc : id ∈ omap checkId extra).
        { apply list_elem_of_omap. exists x. split; [exact Hx |].
          destruct x; try discriminate. exact Hid. }
        rewrite Hextra in Hc. now apply elem_of_nil in Hc.
      - destruct Hstep as (-> & -> & extra & -> & Hextra).
        split; [reflexivity |]. split; [exact Hnone |].
        rewrite omap_app. intros Hin. apply elem_of_app in Hin as [Hin | Hin];
          [contradiction |].
        apply list_elem_of_omap in Hin as (x & Hx & Hid).
        assert (Hc : id ∈ omap checkId extra).
        { apply list_elem_of_omap. exists x. split; [exact Hx |].
          destruct x; try discriminate. exact Hid. }
        rewrite Hextra in Hc. now apply elem_of_nil in Hc.
      - destruct Hstep as (-> & -> & ->).
        split; [reflexivity |]. split; [exact Hnone |].
        rewrite omap_app, launched_scrapingId.
        intros Hin. apply elem_of_app in Hin as [Hin | Hin]; [contradiction |].
        apply elem_of_keys in Hin as [item Hitem]. congruence.
      - destruct Hstep as (id' & item & Hg & -> & Hcase).
        assert (Hne : id' ≠ id).
        { intros ->. apply Hscr. apply list_elem_of_omap.
          exists (checkAndNotify id item). split; [| reflexivity].
          now apply list_elem_of_lookup_2 in Hg. }
        split; [| split; [exact Hnone |]].
        + destruct Hcase as [(_ & -> & _) | (_ & ->)]; [| reflexivity].
          rewrite alertsFor_app. cbn [alertsFor].
          apply String.eqb_neq in Hne. rewrite Hne. lia.
        + intros Hin. apply Hscr.
          destruct Hcase as [(Hgo & _) | (Hgo & _)]; rewrite Hgo in Hin.
          * eapply elem_of_sublist; [exact Hin |].
            apply (omap_insert_sublist scrapingId _ g _ _ Hg). now right.
          * eapply elem_of_sublist; [exact Hin | apply omap_delete_sublist].
      - destruct Hstep as (id' & Hg & -> & -> & ->).
        split; [| split].
        + rewrite alertsFor_app. cbn [alertsFor]. lia.
        + apply lookup_delete_None. now right.
        + intros Hin. apply Hscr.
          eapply elem_of_sublist; [exact Hin | apply omap_delete_sublist].
      - destruct Hstep as (? & ? & ? & ? & _ & -> & -> & ->).
        split; [| split; [exact Hnone |]].
        + rewrite alertsFor_app. cbn [alertsFor]. lia.
        + intros Hin. apply Hscr.
          eapply elem_of_sublist; [exact Hin | apply omap_delete_sublist].
      - destruct Hstep as (c & _ & -> & -> & Hgo).
        split; [reflexivity |]. split; [exact Hnone |].
        destruct Hgo as [-> | ->]; [exact Hscr |].
        intros Hin. apply Hscr.
        eapply elem_of_sublist; [exact Hin | apply omap_delete_sublist]. }
    destruct H1 as (Ha & Hn & Hs).
    destruct (IH st1 st' Hn Hs Htr Hrun) as (Ha' & Hn' & Hs').
    split; [congruence |]. split; assumption.
Qed.

Lemma deliver_queue (alert : PriceAlert) (st st' : state) (c0 : client) :
  deliver alert st c0 = Some st' ->
  forall c, queue st' c = queue st c \/ queue st' c = queue st c ++ [alert].
Proof.
  unfold deliver. destruct (chans st !! c0) as [ch |] eqn:Hch; [| discriminate].
  destruct (closed ch); [discriminate |].
  destruct (length (buf ch) <? sendCap)%nat; intros [= <-] c; unfold queue;
    cbn [set_clients chans];
    (destruct (decide (c = c0)) as [-> | Hne];
     [rewrite lookup_insert_eq, Hch; cbn [buf]; auto
     | rewrite lookup_insert_ne by congruence; auto]).
Qed.

Lemma broadcast_in_queue (alert : PriceAlert) (order : list client) :
  forall st st',
    broadcast_in order alert st = Some st' ->
    forall c, exists k, queue st' c = queue st c ++ repeat alert k.
Proof.
  induction order as [| c0 rest IH]; intros st st' Hb c; cbn [broadcast_in] in Hb.
  - injection Hb as <-. exists 0%nat. cbn [repeat]. now rewrite app_nil_r.
  - destruct (deliver alert st c0) as [st1 |] eqn:Hd; [| discriminate].
    destruct (IH st1 st' Hb c) as [k Hk].
    destruct (deliver_queue alert st st1 c0 Hd c) as [H1 | H1].
    + exists k. now rewrite Hk, H1.
    + exists (S k). rewrite Hk, H1, <- app_assoc. reflexivity.
Qed.

Lemma alertsOf_sent (id : string) (alert : PriceAlert) (q : list PriceAlert) (k : nat) :
  alert_ID alert <> id ->
  support.alertsOf id (q ++ repeat alert k) = support.alertsOf id q.
Proof.
  intros Hne. unfold support.alertsOf. rewrite List.filter_app.
  apply String.eqb_neq in Hne.
  replace (List.filter _ (repeat alert k)) with (@nil PriceAlert);
    [apply app_nil_r |].
  induction k as [| k IH]; cbn [repeat List.filter]; [reflexivity |].
  now rewrite Hne.
Qed.

(** What one step does to a queue: a check or a one-shot alert appends
    copies of its alert, a write pump takes alerts from the front, and
    nothing else touches it. *)
Lemma step_queue (st : state) (ev : event) (st' : state) (c : client) :
  step st ev = Ok st' ->
  match ev with
  | Scraped g _ _ =>
      exists id item alert k,
        goroutines st !! g = Some (checkAndNotify id item) /\
        alert_ID alert = id /\
        queue st' c = queue st c ++ repeat alert k
  | Immediate g _ =>
      exists tempID req price priceString alert k,
        goroutines st !! g = Some (immediateAlert tempID req price priceString) /\
        alert_ID alert = tempID /\
        queue st' c = queue st c ++ repeat alert k
  | Pump _ _ => queue st' c `suffix_of` queue st c
  | _ => queue st' c = queue st c
  end.
Proof.
  destruct ev as [req | id | req v now | | | g v now | g | g now | g w];
    cbn [step]; intros Hstep.
  - injection Hstep as <-. unfold trackPriceHandler.
    destruct (_ || _ || _); reflexivity.
  - injection Hstep as <-. reflexivity.
  - injection Hstep as <-. unfold checkPriceHandler.
    destruct (_ || _); [reflexivity |].
    destruct (scrapePrice v) as [[priceString price] | err]; [| reflexivity].
    destruct (price <=? check_TargetPrice req)%float; reflexivity.
  - injection Hstep as <-. unfold handleWebSocket, queue. cbn [chans].
    destruct (decide (c = fresh (dom (chans st)))) as [-> | Hne].
    + rewrite lookup_insert_eq.
      rewrite (proj1 (not_elem_of_dom (chans st) _) (is_fresh (dom (chans st)))).
      reflexivity.
    + now rewrite lookup_insert_ne by congruence.
  - injection Hstep as <-. reflexivity.
  - destruct (goroutines st !! g) as [[id item | | |] |] eqn:Hg; try discriminate.
    exists id, item.
    unfold checkAndNotify_scraped in Hstep.
    set (alert := {| alert_ID := id; alert_URL := URL item;
                     alert_CurrentPrice := 0; alert_TargetPrice := 0;
                     alert_PriceString := EmptyString;
                     alert_Timestamp := EmptyString |}).
    destruct (scrapePrice v) as [[priceString price] | err].
    + destruct (price <=? TargetPrice item)%float.
      * destruct (broadcast _ st) as [st1 |] eqn:Hb; [| discriminate].
        injection Hstep as <-.
        destruct (broadcast_in_queue _ _ _ _ Hb c) as [k Hk].
        eexists _, k. split; [reflexivity |]. split; [| exact Hk]. reflexivity.
      * injection Hstep as <-. exists alert, 0%nat.
        split; [reflexivity |]. split; [reflexivity |].
        cbn [repeat]. now rewrite app_nil_r.
    + injection Hstep as <-. exists alert, 0%nat.
      split; [reflexivity |]. split; [reflexivity |].
      cbn [repeat]. now rewrite app_nil_r.
  - destruct (goroutines st !! g) as [[| id | |] |] eqn:Hg; try discriminate.
    injection Hstep as <-. reflexivity.
  - destruct (goroutines st !! g) as [[| | tempID req price priceString |] |] eqn:Hg;
      try discriminate.
    unfold runImmediateAlert in Hstep.
    destruct (broadcast _ st) as [st1 |] eqn:Hb; [| discriminate].
    injection Hstep as <-.
    destruct (broadcast_in_queue _ _ _ _ Hb c) as [k Hk].
    eexists tempID, req, price, priceString, _, k.
    split; [reflexivity |]. split; [| exact Hk]. reflexivity.
  - destruct (goroutines st !! g) as [[| | | c0] |] eqn:Hg; try discriminate.
    unfold writePump_step in Hstep.
    destruct (chans st !! c0) as [ch |] eqn:Hch; [| discriminate].
    assert (Hpop : forall rest b cs,
               buf ch = b :: rest ->
               queue (set_clients st cs
                        (<[c0 := {| buf := rest; closed := closed ch |}]> (chans st))) c
               `suffix_of` queue st c).
    { intros rest b cs Hbuf. unfold queue. cbn [set_clients chans].
      destruct (decide (c = c0)) as [-> | Hne].
      - rewrite lookup_insert_eq, Hch, Hbuf. cbn [buf]. now exists [b].
      - now rewrite lookup_insert_ne by congruence. }
    destruct (buf ch) as [| a rest] eqn:Hbuf.
    + destruct (closed ch); [| discriminate].
      injection Hstep as <-. reflexivity.
    + destruct w; injection Hstep as <-; apply (Hpop rest a); reflexivity.
Qed.

Lemma launched_oneShotId (st : state) : omap support.oneShotId (launched st) = [].
Proof.
  unfold launched. induction (map_to_list (trackingItems st)) as [| e l IH];
    [reflexivity | exact IH].
Qed.

(** Only a check-price request adds a one-shot alert, under the temporary
    id of its time. *)
Lemma step_oneShots (st : state) (ev : event) (st' : state) :
  step st ev = Ok st' ->
  match ev with
  | CheckPrice _ _ now =>
      support.oneShots st' = support.oneShots st \/
      support.oneShots st' = support.oneShots st ++ [tempID now]
  | _ => support.oneShots st' `sublist_of` support.oneShots st
  end.
Proof.
  unfold support.oneShots.
  destruct ev as [req | id | req v now | | | g v now | g | g now | g w];
    cbn [step]; intros Hstep.
  - injection Hstep as <-. unfold trackPriceHandler.
    destruct (_ || _ || _); reflexivity.
  - injection Hstep as <-. reflexivity.
  - injection Hstep as <-. unfold checkPriceHandler.
    destruct (_ || _); [now left |].
    destruct (scrapePrice v) as [[priceString price] | err]; [| now left].
    destruct (price <=? check_TargetPrice req)%float; [| now left].
    right. cbn [snd set_goroutines goroutines]. now rewrite omap_app.
  - injection Hstep as <-. cbn [handleWebSocket goroutines].
    rewrite omap_app. cbn [omap list_omap support.oneShotId].
    now rewrite app_nil_r.
  - injection Hstep as <-. cbn [tick set_goroutines goroutines].
    now rewrite omap_app, launched_oneShotId, app_nil_r.
  - destruct (goroutines st !! g) as [[id item | | |] |] eqn:Hg; try discriminate.
    unfold checkAndNotify_scraped in Hstep.
    destruct (scrapePrice v) as [[priceString price] | err].
    + destruct (price <=? TargetPrice item)%float.
      * destruct (broadcast _ st) as [st1 |] eqn:Hb; [| discriminate].
        injection Hstep as <-.
        apply broadcast_in_frame in Hb as (_ & Hgo & _).
        cbn [become add_log set_goroutines goroutines]. rewrite Hgo.
        apply (omap_insert_sublist support.oneShotId _ g _ _ Hg). now left.
      * injection Hstep as <-. apply omap_delete_sublist.
    + injection Hstep as <-. apply omap_delete_sublist.
  - destruct (goroutines st !! g) as [[| id | |] |] eqn:Hg; try discriminate.
    injection Hstep as <-. apply omap_delete_sublist.
  - destruct (goroutines st !! g) as [[| | tempID req price priceString |] |] eqn:Hg;
      try discriminate.
    unfold runImmediateAlert in Hstep.
    destruct (broadcast _ st) as [st1 |] eqn:Hb; [| discriminate].
    injection Hstep as <-.
    apply broadcast_in_frame in Hb as (_ & Hgo & _).
    cbn [finish add_log set_goroutines goroutines]. rewrite Hgo.
    apply omap_delete_sublist.
  - destruct (goroutines st !! g) as [[| | | c0] |] eqn:Hg; try discriminate.
    unfold writePump_step in Hstep.
    destruct (chans st !! c0) as [ch |] eqn:Hch; [| discriminate].
    destruct (buf ch) as [| a rest].
    + destruct (closed ch); [| discriminate].
      injection Hstep as <-. apply omap_delete_sublist.
    + destruct w; injection Hstep as <-; [apply omap_delete_sublist | reflexivity].
Qed.

Lemma alertsOf_suffix (id : string) (q q' : list PriceAlert) :
  q' `suffix_of` q -> support.alertsOf id q' `suffix_of` support.alertsOf id q.
Proof.
  intros [k ->]. unfold support.alertsOf. rewrite List.filter_app.
  now eexists.
Qed.

(** While an id is neither tracked, nor being scraped for, nor the
    temporary id of a one-shot alert, and is not made one of these again,
    no alert with that id is sent: nothing with that id enters a queue, no
    alert is logged for it, and it stays out of the tracked items. *)
Lemma quiet_while_untracked (id : string) (evs : list event) :
  forall st st' : state,
    trackingItems st !! id = None ->
    id ∉ scraping st ->
    id ∉ support.oneShots st ->
    tracks id evs = false ->
    support.checksAs id evs = false ->
    run st evs = Ok st' ->
    (forall c, support.alertsOf id (queue st' c)
               `suffix_of` support.alertsOf id (queue st c)) /\
    alertsFor id (log st') = alertsFor id (log st) /\
    trackingItems st' !! id = None.
Proof.
  induction evs as [| ev rest IH]; intros st st' Hnone Hscr Hone Htr Hch Hrun.
  - injection Hrun as <-. split; [reflexivity | auto].
  - cbn [run] in Hrun.
    destruct (step st ev) as [st1 | f] eqn:Hstep; [| discriminate].
    cbn [tracks existsb] in Htr. apply orb_false_iff in Htr as [Hev Htr].
    cbn [support.checksAs existsb] in Hch. apply orb_false_iff in Hch as [Hev' Hch].
    assert (Hrun1 : run st [ev] = Ok st1) by (cbn [run]; now rewrite Hstep).
    destruct (no_alert_while_untracked id [ev] st st1 Hnone Hscr) as (Ha1 & Hn1 & Hs1);
      [cbn [tracks existsb]; now rewrite Hev | exact Hrun1 |].
    assert (Hone1 : id ∉ support.oneShots st1).
    { pose proof (step_oneShots st ev st1 Hstep) as Ho.
      destruct ev; try (intros Hin; apply Hone; eapply elem_of_sublist; eassumption).
      destruct Ho as [-> | ->]; [exact Hone |].
      intros Hin. apply elem_of_app in Hin as [Hin | Hin]; [contradiction |].
      apply list_elem_of_singleton in Hin. apply String.eqb_neq in Hev'. congruence. }
    assert (Hq1 : forall c, support.alertsOf id (queue st1 c)
                            `suffix_of` support.alertsOf id (queue st c)).
    { intros c. pose proof (step_queue st ev st1 c Hstep) as Hq.
      destruct ev as [req | id' | req v now | | | g v now | g | g now | g w];
        try (rewrite Hq; reflexivity).
      - destruct Hq as (id' & item & alert & k & Hg & Hid & ->).
        rewrite alertsOf_sent; [reflexivity |].
        rewrite Hid. intros ->. apply Hscr. apply list_elem_of_omap.
        exists (checkAndNotify id item). split; [| reflexivity].
        now apply list_elem_of_lookup_2 in Hg.
      - destruct Hq as (tid & req & price & priceString & alert & k & Hg & Hid & ->).
        rewrite alertsOf_sent; [reflexivity |].
        rewrite Hid. intros ->. apply Hone. apply list_elem_of_omap.
        exists (immediateAlert id req price priceString). split; [| reflexivity].
        now apply list_elem_of_lookup_2 in Hg.
      - now apply alertsOf_suffix. }
    destruct (IH st1 st' Hn1 Hs1 Hone1 Htr Hch Hrun) as (Hq & Ha & Hn).
    split; [| split; [congruence | exact Hn]].
    intros c. etransitivity; [apply Hq | apply Hq1].
Qed.


End Runs.


(** Why the temporary ids of one-shot checks are set apart above: an item
    tracked under such an id is alerted for and removed, and the one-shot
    check made afterwards sends an alert that carries the same id. *)
Example one_shot_alert_shares_id :
  exists st,
    main.run main.init sample.same_id = Ok st /\
    main.tracks "check-1762084800" (drop 5 sample.same_id) = false /\
    support.checksAs "check-1762084800" (drop 5 sample.same_id) = true /\
    main.trackingItems st !! "check-1762084800"%string = None /\
    main.alertsFor "check-1762084800" (main.log st) = 1%nat /\
    List.map main.alert_ID (main.queue st 1%positive)
    = ["check-1762084800"; "check-1762084800"]%string /\
    List.map main.alert_URL (main.queue st 1%positive)
    = ["https://www.amazon.in/dp/C"; "https://www.amazon.in/dp/B"]%string.
Proof.
  eexists. split; [vm_compute; reflexivity |].
  repeat split; vm_compute; reflexivity.
Qed.


(** C8 (as stated, refuted): two ticks in a row, the second while the
    check of "A" that the first started is still scraping, leave two checks
    of "A" in flight. *)
Lemma tick_overlaps_running_check :
  exists st,
    main.run main.init sample.overlap = Ok st /\
    main.goroutines st
    = [main.checkAndNotify "A" sample.itemA; main.checkAndNotify "A" sample.itemA] /\
    main.inFlight st = ["A"; "A"]%string.
Proof.
  eexists. split; [vm_compute; reflexivity |].
  split; vm_compute; reflexivity.
Qed.

Lemma checks_distinct_when_spaced_witness :
  exists st',
    main.run main.init sample.in_turn = Ok st' /\
    NoDup (main.inFlight st') /\
    NoDup (omap main.checkId (main.launched st')) /\
    (forall id, id ∈ omap main.checkId (main.launched st')
                <-> is_Some (main.trackingItems st' !! id)) /\
    main.inFlight (main.tick st')
    = main.inFlight st' ++ omap main.checkId (main.launched st').
Proof.
  eexists. split; [vm_compute; reflexivity |].
  apply (checks_distinct_when_spaced sample.in_turn main.init).
  - apply NoDup_nil_2.
  - vm_compute. reflexivity.
  - vm_compute. reflexivity.
Defined.

(** The end-to-end run of the specification: "A" is tracked for 100; the
    first poll reads 120 and "A" stays; the second reads 95, the alert goes
    to the connected client and "A" is no longer listed. *)
Example track_poll_alert_remove :
  (exists st,
     main.run main.init (take 4 sample.in_turn) = Ok st /\
     main.getTrackedItemsHandler st = [sample.itemA] /\
     main.queue st 1%positive = []) /\
  (exists st,
     main.run main.init sample.in_turn = Ok st /\
     main.getTrackedItemsHandler st = [] /\
     List.map main.alert_ID (main.queue st 1%positive) = ["A"%string] /\
     main.inFlight st = []).
Proof.
  split; eexists; (split; [vm_compute; reflexivity |]);
    repeat split; vm_compute; reflexivity.
Qed.

(** * Further properties *)

(** ** The scraper *)

Lemma firstSuccess_Ok (doc : scraper.Document) (l : list selector.strategy)
    (price : float) (id : string) :
  selector.firstSuccess doc l = Ok (price, id) ->
  exists s, In s l /\ selector.attempt doc s = Some price /\ id = selector.strategyId s.
Proof.
  induction l as [| s l IH]; cbn [selector.firstSuccess]; [discriminate |].
  destruct (selector.attempt doc s) as [p |] eqn:Hs.
  - intros [= <- <-]. exists s. split; [now left | split; [exact Hs | reflexivity]].
  - intros H. destruct (IH H) as (s' & Hin & Hs' & Hid).
    exists s'. split; [now right | split; assumption].
Qed.

Lemma firstSuccess_Err (doc : scraper.Document) (l : list selector.strategy)
    (e : scraper.error) :
  selector.firstSuccess doc l = Err e ->
  e = scraper.ErrNotFound /\ forall s, In s l -> selector.attempt doc s = None.
Proof.
  induction l as [| s l IH]; cbn [selector.firstSuccess].
  - intros [= <-]. split; [reflexivity |]. intros s [].
  - destruct (selector.attempt doc s) as [p |] eqn:Hs; [discriminate |].
    intros H. destruct (IH H) as (He & Hall). split; [exact He |].
    intros s' [<- | Hin]; [exact Hs | now apply Hall].
Qed.

Lemma firstSuccess_none (doc : scraper.Document) (l : list selector.strategy) :
  (forall s, In s l -> selector.attempt doc s = None) ->
  selector.firstSuccess doc l = Err scraper.ErrNotFound.
Proof.
  induction l as [| s l IH]; intros Hall; cbn [selector.firstSuccess]; [reflexivity |].
  rewrite (Hall s) by now left. apply IH. intros s' Hin. apply Hall. now right.
Qed.

Lemma ScrapePrice_page (status : string) (doc : scraper.Document) :
  scraper.ScrapePrice (scraper.Response 200 status (Some doc)) = selector.extract doc.
Proof.
  unfold scraper.ScrapePrice, scraper.withDocument. cbn [Z.eqb Pos.eqb negb].
  apply scrapeDocument_extract.
Qed.

Lemma withDocument_Ok {A : Type} (page : scraper.fetched)
    (k : scraper.Document -> result scraper.error A) (a : A) :
  scraper.withDocument page k = Ok a ->
  exists status doc, page = scraper.Response 200 status (Some doc) /\ k doc = Ok a.
Proof.
  destruct page as [| code status [doc |]]; cbn [scraper.withDocument];
    try discriminate.
  - destruct (Z.eqb_spec code 200) as [-> | Hne]; cbn [negb]; [| discriminate].
    intros H. now exists status, doc.
  - destruct (code =? 200); discriminate.
Qed.

Lemma strategyId_known (s : selector.strategy) :
  In s selector.strategies ->
  In (selector.strategyId s) (scraper.compositeId :: scraper.commonSelectors) /\
  scraper.isEmpty (selector.strategyId s) = false.
Proof.
  unfold selector.strategies, scraper.commonSelectors.
  cbn [List.map In]. intros H.
  repeat (destruct H as [<- | H]; [split; [cbn; tauto | reflexivity] |]).
  destruct H.
Qed.

(** X1: [ScrapePrice] succeeds only on a response with status 200 whose body
    parsed, and the selector it returns is then the composite identifier or
    one of the ten common selectors, never the empty string. *)
Theorem ScrapePrice_success_shape
    (page : scraper.fetched) (price : float) (sel : string) :
  scraper.ScrapePrice page = Ok (price, sel) ->
  (exists status doc, page = scraper.Response 200 status (Some doc)) /\
  In sel (scraper.compositeId :: scraper.commonSelectors) /\
  scraper.isEmpty sel = false.
Proof.
  intros H. apply withDocument_Ok in H as (status & doc & -> & H).
  split; [now exists status, doc |].
  rewrite scrapeDocument_extract in H.
  apply firstSuccess_Ok in H as (s & Hin & _ & ->).
  now apply strategyId_known.
Qed.

Lemma ScrapePrice_success_shape_witness :
  (exists status doc, sample.ok_page sample.several_prices
                      = scraper.Response 200 status (Some doc)) /\
  In ".a-offscreen"%string (scraper.compositeId :: scraper.commonSelectors) /\
  scraper.isEmpty ".a-offscreen" = false.
Proof.
  apply (ScrapePrice_success_shape (sample.ok_page sample.several_prices) 18.5%float).
  vm_compute. reflexivity.
Defined.

(** X2: on a page that was fetched and parsed, [ScrapePrice] fails exactly
    when none of the eleven strategies succeeds, and the error is then the
    one that says no price was found. *)
Theorem ScrapePrice_not_found (status : string) (doc : scraper.Document) :
  (scraper.ScrapePrice (scraper.Response 200 status (Some doc))
   = Err scraper.ErrNotFound
   <-> forall s, In s selector.strategies -> selector.attempt doc s = None) /\
  (forall e, scraper.ScrapePrice (scraper.Response 200 status (Some doc)) = Err e ->
             e = scraper.ErrNotFound).
Proof.
  rewrite ScrapePrice_page. unfold selector.extract. split; [split |].
  - intros H. now apply firstSuccess_Err in H as [_ H].
  - apply firstSuccess_none.
  - intros e H. now apply firstSuccess_Err in H as [H _].
Qed.

Lemma extract_replays (status : string) (doc : scraper.Document)
    (price : float) (sel : string) :
  selector.extract doc = Ok (price, sel) ->
  scraper.ScrapePriceWithSelector (scraper.Response 200 status (Some doc)) sel
  = Ok price.
Proof.
  intros H.
  unfold scraper.ScrapePriceWithSelector, scraper.withDocument.
  cbn [Z.eqb Pos.eqb negb].
  apply firstSuccess_Ok in H as (s & Hin & Hs & ->).
  unfold selector.attempt in Hs.
  destruct s as [| hint]; cbn [selector.strategyId selector.matchedText] in *.
  - rewrite String.eqb_refl.
    destruct (scraper.isEmpty (scraper.amazonPriceText doc)); [discriminate |].
    cbn [negb].
    destruct (scraper.ParsePriceString (scraper.amazonPriceText doc));
      [congruence | discriminate].
  - assert (Hne : String.eqb hint scraper.compositeId = false).
    { unfold selector.strategies, scraper.commonSelectors in Hin.
      cbn [List.map In] in Hin.
      destruct Hin as [Hc | Hin]; [discriminate |].
      repeat (destruct Hin as [[= <-] | Hin]; [reflexivity |]). destruct Hin. }
    rewrite Hne. cbn [scraper.isEmpty negb].
    destruct (scraper.isEmpty (scraper.priceText (doc hint))); [discriminate |].
    destruct (scraper.ParsePriceString (scraper.priceText (doc hint)));
      [congruence | discriminate].
Qed.

(** X3: the selector that [ScrapePrice] returns for a page, given to
    [ScrapePriceWithSelector] on the same page, yields the same price. *)
Theorem ScrapePriceWithSelector_replays
    (page : scraper.fetched) (price : float) (sel : string) :
  scraper.ScrapePrice page = Ok (price, sel) ->
  scraper.ScrapePriceWithSelector page sel = Ok price.
Proof.
  intros H. apply withDocument_Ok in H as (status & doc & -> & H).
  rewrite scrapeDocument_extract in H. now apply extract_replays.
Qed.

Lemma ScrapePriceWithSelector_replays_witness :
  scraper.ScrapePriceWithSelector (sample.ok_page sample.several_prices) ".a-offscreen"
  = Ok 18.5%float.
Proof.
  apply (ScrapePriceWithSelector_replays (sample.ok_page sample.several_prices)).
  vm_compute. reflexivity.
Defined.

Lemma priceText_blank (s : scraper.Selection) (rest : list scraper.Selection) :
  support.blank s = true ->
  scraper.priceText (s :: rest) = scraper.priceText rest.
Proof.
  unfold support.blank. cbn [scraper.priceText].
  destruct (scraper.isEmpty (strings.TrimSpace (scraper.Text s))); [| discriminate].
  cbn [andb negb].
  destruct (scraper.Attr_content s) as [v |]; [| reflexivity].
  now intros ->.
Qed.

Lemma priceText_not_blank (s : scraper.Selection) (rest : list scraper.Selection) :
  support.blank s = false ->
  scraper.priceText (s :: rest) = scraper.priceText [s] /\
  scraper.isEmpty (scraper.priceText [s]) = false.
Proof.
  unfold support.blank. cbn [scraper.priceText].
  destruct (scraper.isEmpty (strings.TrimSpace (scraper.Text s))) eqn:Ht;
    cbn [andb negb].
  - destruct (scraper.Attr_content s) as [v |]; [| discriminate].
    intros Hv. rewrite Hv. cbn [negb]. now split.
  - intros _. now split.
Qed.

(** X4: the text a selector contributes is that of the first matched
    element that is not blank (its trimmed text, or else its trimmed
    [content] attribute), whatever follows it; it is empty exactly when
    every matched element is blank. *)
Theorem priceText_first_not_blank
    (before : list scraper.Selection) (s : scraper.Selection)
    (after : list scraper.Selection) :
  forallb support.blank before = true ->
  support.blank s = false ->
  scraper.priceText (before ++ s :: after) = scraper.priceText [s] /\
  scraper.isEmpty (scraper.priceText (before ++ s :: after)) = false /\
  scraper.isEmpty (scraper.priceText before) = true.
Proof.
  induction before as [| b before IH]; intros Hb Hs; cbn [app].
  - destruct (priceText_not_blank s after Hs) as [-> Hne]. now repeat split.
  - cbn [forallb] in Hb. apply andb_true_iff in Hb as [Hb1 Hb].
    rewrite (priceText_blank b (before ++ s :: after) Hb1).
    rewrite (priceText_blank b before Hb1). now apply IH.
Qed.

Lemma priceText_first_not_blank_witness :
  scraper.priceText
    ([sample.element " "] ++ sample.element "$ 18.50" :: [sample.element "31.00"])
  = scraper.priceText [sample.element "$ 18.50"] /\
  scraper.isEmpty
    (scraper.priceText
       ([sample.element " "] ++ sample.element "$ 18.50" :: [sample.element "31.00"]))
  = false /\
  scraper.isEmpty (scraper.priceText [sample.element " "]) = true.
Proof.
  apply (priceText_first_not_blank [sample.element " "] (sample.element "$ 18.50")
           [sample.element "31.00"]); vm_compute; reflexivity.
Defined.

(** ** Separators in a price *)

Lemma HasPrefix_nil (s : string) : strings.HasPrefix s EmptyString = true.
Proof. now destruct s. Qed.

Lemma HasPrefix_cons (c a : ascii) (s p : string) :
  strings.HasPrefix (String c s) (String a p) = Ascii.eqb c a && strings.HasPrefix s p.
Proof.
  unfold strings.HasPrefix.
  change (String.prefix (String a p) (String c s))
    with (if ascii_dec a c then String.prefix p s else false).
  destruct (ascii_dec a c) as [<- | Hne].
  - now rewrite Ascii.eqb_refl.
  - assert (Ascii.eqb c a = false) as -> by (apply Ascii.eqb_neq; congruence).
    reflexivity.
Qed.

Lemma ascii_byte_neq (c a : ascii) :
  support.ascii_byte c = true -> (128 <=? N_of_ascii a)%N = true ->
  Ascii.eqb c a = false.
Proof.
  unfold support.ascii_byte. intros Hc Ha.
  apply Ascii.eqb_neq. intros ->.
  apply N.ltb_lt in Hc. apply N.leb_le in Ha. lia.
Qed.

(** On an ASCII byte the replacer acts only if it is one of its three
    one-byte patterns. *)
Lemma Replace_from_ascii_byte (c : ascii) (s : string) :
  support.ascii_byte c = true ->
  strings.Replace_from scraper.replacer 0 (String c s)
  = if support.separator c then strings.Replace_from scraper.replacer 0 s
    else String c (strings.Replace_from scraper.replacer 0 s).
Proof.
  intros Hc. cbn [strings.Replace_from].
  unfold strings.match_pair, scraper.replacer, support.separator.
  change (strings.bytes [226; 130; 172]%nat)
    with (String "226"%char (String "130"%char (String "172"%char EmptyString))).
  change (strings.bytes [194; 163]%nat)
    with (String "194"%char (String "163"%char EmptyString)).
  change (strings.bytes [226; 130; 185]%nat)
    with (String "226"%char (String "130"%char (String "185"%char EmptyString))).
  cbn [List.find fst].
  rewrite !HasPrefix_cons, !HasPrefix_nil, !andb_true_r.
  rewrite (ascii_byte_neq c "226" Hc eq_refl), (ascii_byte_neq c "194" Hc eq_refl).
  cbn [andb].
  destruct (Ascii.eqb c "$"); [reflexivity |].
  destruct (Ascii.eqb c ","); [reflexivity |].
  destruct (Ascii.eqb c " "); reflexivity.
Qed.

Lemma Replace_ascii (s : string) :
  support.ascii_only s = true ->
  strings.Replace scraper.replacer s = support.strip s.
Proof.
  unfold strings.Replace.
  induction s as [| c s IH]; intros Hs; [reflexivity |].
  cbn [support.ascii_only] in Hs. apply andb_true_iff in Hs as [Hc Hs].
  rewrite (Replace_from_ascii_byte c s Hc). cbn [support.strip].
  rewrite (IH Hs). reflexivity.
Qed.

(** X5: in an ASCII input, dollar signs, commas and spaces do not matter
    to [ParsePriceString], wherever they stand: two inputs that are equal
    once these bytes are deleted give the same price, or both fail. *)
Theorem ParsePriceString_ignores_separators (priceStr priceStr' : string) :
  support.ascii_only priceStr = true ->
  support.ascii_only priceStr' = true ->
  support.strip priceStr = support.strip priceStr' ->
  support.value (scraper.ParsePriceString priceStr)
  = support.value (scraper.ParsePriceString priceStr') /\
  support.value (scraper.ParsePriceString priceStr)
  = support.value (strconv.ParseFloat (support.strip priceStr)).
Proof.
  intros Ha Ha' Heq. unfold scraper.ParsePriceString.
  rewrite !localize_cleaned, (Replace_ascii _ Ha), (Replace_ascii _ Ha'), Heq.
  split; now destruct (strconv.ParseFloat (support.strip priceStr')).
Qed.

Lemma ParsePriceString_ignores_separators_witness :
  support.value (scraper.ParsePriceString "$ 1,234.50")
  = support.value (scraper.ParsePriceString "12 34.5,0") /\
  support.value (scraper.ParsePriceString "$ 1,234.50")
  = support.value (strconv.ParseFloat (support.strip "$ 1,234.50")).
Proof.
  apply (ParsePriceString_ignores_separators "$ 1,234.50" "12 34.5,0");
    vm_compute; reflexivity.
Defined.

(** ** The tracker loop *)

Lemma SFcompare_refl (x : spec_float) :
  SFcompare x x = Some Eq \/ SFcompare x x = None.
Proof.
  destruct x as [s | s | | s m e]; cbn.
  - now left.
  - left. now destruct s.
  - now right.
  - left. rewrite Z.compare_refl, Pos.compare_cont_refl. now destruct s.
Qed.

Lemma float_ltb_irrefl (p : float) : (p <? p)%float = false.
Proof.
  rewrite ltb_spec. unfold SFltb.
  now destruct (SFcompare_refl (Prim2SF p)) as [-> | ->].
Qed.

Lemma float_pos_not_lt_0 (p : float) :
  (0 <? p)%float = true -> (p <? 0)%float = false.
Proof.
  rewrite !ltb_spec. unfold SFltb.
  change (Prim2SF 0) with (S754_zero false).
  destruct (Prim2SF p) as [s | s | | s m e]; cbn; try discriminate;
    destruct s; cbn; try discriminate; reflexivity.
Qed.

Lemma float_pos_eqb_refl (p : float) :
  (0 <? p)%float = true -> (p =? p)%float = true.
Proof.
  rewrite ltb_spec, FloatAxioms.eqb_spec. unfold SFltb, SFeqb.
  change (Prim2SF 0) with (S754_zero false).
  destruct (SFcompare_refl (Prim2SF p)) as [-> | Hnan]; [reflexivity |].
  destruct (Prim2SF p) as [s | s | | s m e]; cbn in *; discriminate.
Qed.

(** [TruncateURL] returns whenever [maxLen] is at least 3. *)
Lemma TruncateURL_fits (urlStr : string) (maxLen : Z) :
  3 <= maxLen <= tracker.max_int ->
  exists r, tracker.TruncateURL urlStr maxLen = Some r /\ strings.len r <= maxLen.
Proof.
  intros Hm. unfold tracker.TruncateURL.
  destruct (Z.leb_spec (strings.len urlStr) maxLen) as [Hfit | Hlong].
  - now exists urlStr.
  - rewrite wrap_in_range by (unfold tracker.min_int, tracker.max_int in *; lia).
    rewrite (proj2 (Z.ltb_ge _ _)) by lia.
    rewrite (proj2 (Z.ltb_ge _ _)) by lia.
    cbn [orb]. eexists. split; [reflexivity |].
    unfold strings.len in *.
    rewrite length_append, length_substring_0 by lia.
    cbn [String.length]. lia.
Qed.

Lemma float_pos_neq_0 (p : float) :
  (0 <? p)%float = true -> (p =? 0)%float = false.
Proof.
  rewrite ltb_spec, FloatAxioms.eqb_spec. unfold SFltb, SFeqb.
  change (Prim2SF 0) with (S754_zero false).
  destruct (Prim2SF p) as [s | [] | | [] m e]; cbn; congruence.
Qed.

(** What the comparison of a tick does for a tracker that has seen no price
    yet: a price above 0 becomes the last price, anything else is dropped;
    nothing is notified. *)
Lemma compare_first_observation (t : tracker.Tracker) (p : float) (push : tracker.pushed) :
  tracker.LastPrice t = 0%float ->
  tracker.compare t p push
  = Some (if (0 <? p)%float then tracker.set_LastPrice t p else t, None).
Proof.
  intros H0. unfold tracker.compare. rewrite H0.
  destruct (0 <? p)%float eqn:Hpos; cbn [andb]; [| reflexivity].
  rewrite (float_pos_not_lt_0 p Hpos). cbn [andb].
  now rewrite (float_pos_neq_0 p Hpos).
Qed.

(** X6: a tracker whose last price is still 0, that is one that has not
    seen a price yet, never notifies and never panics on a tick, whatever
    the pages show and the push service answers: its first observation is
    only recorded.  A price above 0 becomes the last price (with the
    selector of the fallback scrape, when that one found it); a price that
    is not above 0 and a failed scrape leave the last price at 0. *)
Theorem onTick_first_observation_silent
    (t : tracker.Tracker) (first fallback : scraper.fetched) (push : tracker.pushed) :
  tracker.LastPrice t = 0%float ->
  exists t',
    tracker.onTick t first fallback push = Some (t', None) /\
    match scraper.ScrapePriceWithSelector first (tracker.Selector t) with
    | Ok currentPrice =>
        t' = if (0 <? currentPrice)%float
             then tracker.set_LastPrice t currentPrice else t
    | Err _ =>
        match scraper.ScrapePrice fallback with
        | Ok (currentPrice, newSelector) =>
            let t1 :=
              if negb (String.eqb newSelector (tracker.Selector t))
                 && negb (scraper.isEmpty newSelector)
              then tracker.set_Selector t newSelector else t in
            t' = if (0 <? currentPrice)%float
                 then tracker.set_LastPrice t1 currentPrice else t1
        | Err _ => t' = t
        end
    end.
Proof.
  intros Hlast. unfold tracker.onTick.
  destruct (scraper.ScrapePriceWithSelector first (tracker.Selector t)) as [p | e].
  - rewrite (compare_first_observation t p push Hlast). eauto.
  - destruct (scraper.ScrapePrice fallback) as [[p sel] | e']; [| eauto].
    cbv zeta. rewrite compare_first_observation by now destruct (_ && _).
    eauto.
Qed.

Lemma onTick_first_observation_silent_witness :
  exists t',
    tracker.onTick sample2.fresh_tracker (sample.price_page "95")
      scraper.GetFailed tracker.PushSent = Some (t', None) /\
    t' = tracker.set_LastPrice sample2.fresh_tracker 95 /\
    tracker.LastPrice t' = 95%float.
Proof.
  destruct (onTick_first_observation_silent sample2.fresh_tracker
              (sample.price_page "95") scraper.GetFailed tracker.PushSent eq_refl)
    as [t' [Htick Ht']].
  exists t'. split; [exact Htick |].
  vm_compute in Ht'. subst t'. split; reflexivity.
Defined.

(** X7: once a tracker has notified at a price, seeing the same price again
    does not notify again and changes nothing, whatever the push service
    answers. *)
Theorem compare_same_price_silent
    (t t' : tracker.Tracker) (p : float) (push push' : tracker.pushed)
    (n : tracker.notification) :
  tracker.compare t p push = Some (t', Some n) ->
  tracker.compare t' p push' = Some (t', None) /\
  tracker.LastPrice t' = p /\ tracker.note_price n = p.
Proof.
  unfold tracker.compare at 1.
  destruct ((0 <? p) && (p <? tracker.LastPrice t) && (p <=? tracker.ThresholdPrice t))%float
    eqn:Hcond.
  - apply andb_true_iff in Hcond as [Hcond _].
    apply andb_true_iff in Hcond as [Hpos _].
    destruct (tracker.TruncateURL (tracker.URL t) 40) as [short |]; [| discriminate].
    destruct (tracker.sendNotification t push) as [t1 |]; [| discriminate].
    intros [= <- <-]. cbn. split; [| now split].
    unfold tracker.compare. cbn.
    rewrite float_ltb_irrefl, andb_false_r. cbn [andb].
    now rewrite Hpos, (float_pos_eqb_refl p Hpos).
  - destruct (0 <? p)%float; [destruct (negb _) |]; discriminate.
Qed.

Lemma compare_same_price_silent_witness :
  tracker.compare sample2.notified_tracker 95 (tracker.PushFailed (Some 500))
  = Some (sample2.notified_tracker, None) /\
  tracker.LastPrice sample2.notified_tracker = 95%float /\
  tracker.note_price
    {| tracker.note_price := 95; tracker.note_url := "https://www.amazon.in/dp/A" |}
  = 95%float.
Proof.
  apply (compare_same_price_silent sample.trackerA sample2.notified_tracker 95
           tracker.PushSent).
  vm_compute. reflexivity.
Defined.

Lemma sendNotification_frame (t t' : tracker.Tracker) (push : tracker.pushed) :
  tracker.sendNotification t push = Some t' ->
  tracker.ID t' = tracker.ID t /\ tracker.URL t' = tracker.URL t /\
  tracker.ThresholdPrice t' = tracker.ThresholdPrice t /\
  tracker.Selector t' = tracker.Selector t /\
  tracker.LastPrice t' = tracker.LastPrice t.
Proof.
  unfold tracker.sendNotification.
  destruct push as [| [code |]]; try (intros [= <-]; now repeat split).
  destruct ((code =? 404) || (code =? 410)); [| intros [= <-]; now repeat split].
  destruct (tracker.Stopped t); [discriminate |].
  intros [= <-]. now repeat split.
Qed.

Lemma compare_frame (t t' : tracker.Tracker) (p : float) (push : tracker.pushed)
    (n : option tracker.notification) :
  tracker.compare t p push = Some (t', n) ->
  tracker.ID t' = tracker.ID t /\ tracker.URL t' = tracker.URL t /\
  tracker.ThresholdPrice t' = tracker.ThresholdPrice t /\
  tracker.Selector t' = tracker.Selector t /\
  (tracker.LastPrice t' = tracker.LastPrice t \/
   (tracker.LastPrice t' = p /\ (0 <? p)%float = true)).
Proof.
  unfold tracker.compare.
  destruct ((0 <? p) && (p <? tracker.LastPrice t) && (p <=? tracker.ThresholdPrice t))%float
    eqn:Hcond.
  - apply andb_true_iff in Hcond as [Hcond _].
    apply andb_true_iff in Hcond as [Hpos _].
    destruct (tracker.TruncateURL (tracker.URL t) 40) as [short |]; [| discriminate].
    destruct (tracker.sendNotification t push) as [t1 |] eqn:Hsend; [| discriminate].
    apply sendNotification_frame in Hsend as (H1 & H2 & H3 & H4 & H5).
    intros [= <- <-]. cbn. repeat split; auto.
  - destruct (0 <? p)%float eqn:Hpos.
    + destruct (negb _); intros [= <- <-]; cbn; repeat split; auto.
    + intros [= <- <-]. repeat split; auto.
Qed.

(** X8: a tick never changes the id, the URL or the threshold of a tracker;
    its selector stays, or becomes one of the identifiers [ScrapePrice]
    returns; and its last price stays, or becomes a price above 0. *)
Theorem onTick_frame
    (t t' : tracker.Tracker) (first fallback : scraper.fetched)
    (push : tracker.pushed) (n : option tracker.notification) :
  tracker.onTick t first fallback push = Some (t', n) ->
  tracker.ID t' = tracker.ID t /\
  tracker.URL t' = tracker.URL t /\
  tracker.ThresholdPrice t' = tracker.ThresholdPrice t /\
  (tracker.Selector t' = tracker.Selector t \/
   In (tracker.Selector t') (scraper.compositeId :: scraper.commonSelectors)) /\
  (tracker.LastPrice t' = tracker.LastPrice t \/
   (0 <? tracker.LastPrice t')%float = true).
Proof.
  unfold tracker.onTick.
  destruct (scraper.ScrapePriceWithSelector first (tracker.Selector t)) as [p | e].
  - intros H. apply compare_frame in H as (H1 & H2 & H3 & H4 & H5).
    repeat split; auto.
    destruct H5 as [H5 | [H5 Hpos]]; [now left | right; congruence].
  - destruct (scraper.ScrapePrice fallback) as [[p sel] | e'] eqn:Hscrape.
    + intros H. apply compare_frame in H as (H1 & H2 & H3 & H4 & H5).
      assert (Hknown : In sel (scraper.compositeId :: scraper.commonSelectors)).
      { apply withDocument_Ok in Hscrape as (status & doc & _ & Hdoc).
        rewrite scrapeDocument_extract in Hdoc.
        apply firstSuccess_Ok in Hdoc as (s & Hin & _ & ->).
        now apply strategyId_known. }
      destruct (negb (String.eqb sel (tracker.Selector t)) && negb (scraper.isEmpty sel));
        cbn in *.
      * repeat split; auto; [right; congruence |].
        destruct H5 as [H5 | [H5 Hpos]]; [now left | right; congruence].
      * repeat split; auto.
        destruct H5 as [H5 | [H5 Hpos]]; [now left | right; congruence].
    + intros [= <- <-]. repeat split; auto.
Qed.

Lemma onTick_frame_witness :
  tracker.ID sample2.notified_tracker = tracker.ID sample.trackerA /\
  tracker.URL sample2.notified_tracker = tracker.URL sample.trackerA /\
  tracker.ThresholdPrice sample2.notified_tracker = tracker.ThresholdPrice sample.trackerA /\
  (tracker.Selector sample2.notified_tracker = tracker.Selector sample.trackerA \/
   In (tracker.Selector sample2.notified_tracker)
      (scraper.compositeId :: scraper.commonSelectors)) /\
  (tracker.LastPrice sample2.notified_tracker = tracker.LastPrice sample.trackerA \/
   (0 <? tracker.LastPrice sample2.notified_tracker)%float = true).
Proof.
  apply (onTick_frame sample.trackerA sample2.notified_tracker
           (sample.price_page "95") scraper.GetFailed tracker.PushSent
           (Some {| tracker.note_price := 95;
                    tracker.note_url := "https://www.amazon.in/dp/A" |})).
  vm_compute. reflexivity.
Defined.

(** X9: while its stop channel is open a tick does not panic, whatever the
    pages show and the push service answers; and a notification is sent
    only for a price above 0, below the last price and not above the
    threshold, which becomes the last price, with a URL of at most 40
    bytes. *)
Theorem onTick_no_panic
    (t : tracker.Tracker) (first fallback : scraper.fetched) (push : tracker.pushed) :
  tracker.Stopped t = false ->
  exists t' n,
    tracker.onTick t first fallback push = Some (t', n) /\
    forall note, n = Some note ->
      tracker.note_price note = tracker.LastPrice t' /\
      strings.len (tracker.note_url note) <= 40 /\
      (0 <? tracker.note_price note)%float = true /\
      (tracker.note_price note <? tracker.LastPrice t)%float = true /\
      (tracker.note_price note <=? tracker.ThresholdPrice t)%float = true.
Proof.
  intros Hopen.
  assert (Hcmp : forall t0 p,
            tracker.Stopped t0 = false ->
            exists t' n,
              tracker.compare t0 p push = Some (t', n) /\
              forall note, n = Some note ->
                tracker.note_price note = tracker.LastPrice t' /\
                strings.len (tracker.note_url note) <= 40 /\
                (0 <? tracker.note_price note)%float = true /\
                (tracker.note_price note <? tracker.LastPrice t0)%float = true /\
                (tracker.note_price note <=? tracker.ThresholdPrice t0)%float = true).
  { intros t0 p H0. unfold tracker.compare.
    destruct ((0 <? p) && (p <? tracker.LastPrice t0)
              && (p <=? tracker.ThresholdPrice t0))%float eqn:Hcond.
    - apply andb_true_iff in Hcond as [Hcond Hthr].
      apply andb_true_iff in Hcond as [Hpos Hlast].
      destruct (TruncateURL_fits (tracker.URL t0) 40) as (short & -> & Hshort).
      { unfold tracker.max_int. lia. }
      assert (Hsend : exists t1, tracker.sendNotification t0 push = Some t1).
      { unfold tracker.sendNotification. rewrite H0.
        destruct push as [| [code |]]; eauto.
        destruct (_ || _); eauto. }
      destruct Hsend as (t1 & ->).
      eexists _, _. split; [reflexivity |].
      intros note [= <-]. cbn. auto.
    - destruct (0 <? p)%float; [destruct (negb _) |];
        eexists _, _; (split; [reflexivity | discriminate]). }
  unfold tracker.onTick.
  destruct (scraper.ScrapePriceWithSelector first (tracker.Selector t)) as [p | e].
  - now apply Hcmp.
  - destruct (scraper.ScrapePrice fallback) as [[p sel] | e'].
    + destruct (_ && _).
      * destruct (Hcmp (tracker.set_Selector t sel) p Hopen) as (t' & n & Hc & Hn).
        exists t', n. split; [exact Hc | exact Hn].
      * now apply Hcmp.
    + eexists _, _. split; [reflexivity | discriminate].
Qed.

Lemma onTick_no_panic_witness :
  exists t' n,
    tracker.onTick sample.trackerA (sample.price_page "95") scraper.GetFailed
      (tracker.PushFailed (Some 410)) = Some (t', n) /\
    forall note, n = Some note ->
      tracker.note_price note = tracker.LastPrice t' /\
      strings.len (tracker.note_url note) <= 40 /\
      (0 <? tracker.note_price note)%float = true /\
      (tracker.note_price note <? tracker.LastPrice sample.trackerA)%float = true /\
      (tracker.note_price note <=? tracker.ThresholdPrice sample.trackerA)%float = true.
Proof.
  apply (onTick_no_panic sample.trackerA). reflexivity.
Defined.

(** X10: for every [maxLen] from 3 on, [TruncateURL] returns for every URL,
    what it returns is never longer than [maxLen], and truncating the
    result again changes nothing. *)
Theorem TruncateURL_idempotent (urlStr : string) (maxLen : Z) :
  3 <= maxLen <= tracker.max_int ->
  exists r,
    tracker.TruncateURL urlStr maxLen = Some r /\
    strings.len r <= maxLen /\
    tracker.TruncateURL r maxLen = Some r.
Proof.
  intros Hm. destruct (TruncateURL_fits urlStr maxLen Hm) as (r & Hr & Hlen).
  exists r. split; [exact Hr |]. split; [exact Hlen |].
  unfold tracker.TruncateURL. now rewrite (proj2 (Z.leb_le _ _) Hlen).
Qed.

Lemma TruncateURL_idempotent_witness :
  exists r,
    tracker.TruncateURL "https://shop.example/item/42" 12 = Some r /\
    strings.len r <= 12 /\
    tracker.TruncateURL r 12 = Some r.
Proof.
  apply (TruncateURL_idempotent "https://shop.example/item/42" 12).
  vm_compute. split; congruence.
Defined.

(** ** Invariants of the server *)

Section Invariants.

Import main.

(** A property kept by every step is kept by every run. *)
Lemma run_preserves (P : state -> Prop) :
  (forall st ev st', P st -> step st ev = Ok st' -> P st') ->
  forall evs st st', P st -> run st evs = Ok st' -> P st'.
Proof.
  intros Hstep. induction evs as [| ev rest IH]; intros st st' HP Hrun.
  - now injection Hrun as <-.
  - cbn [run] in Hrun.
    destruct (step st ev) as [st1 | f] eqn:Hs; [| discriminate].
    apply (IH st1 st'); [| exact Hrun]. now apply (Hstep st ev).
Qed.

(** Where the channels of the clients are open, a broadcast returns and
    keeps them so; queues stay within their capacity, and the alert is the
    only thing that enters a queue. *)
Lemma broadcast_keeps (alert : PriceAlert) (st : state) :
  support.clients_open st ->
  exists st',
    broadcast alert st = Some st' /\
    trackingItems st' = trackingItems st /\
    goroutines st' = goroutines st /\
    log st' = log st /\
    support.clients_open st' /\
    (support.queues_bounded st -> support.queues_bounded st') /\
    (forall c ch' a, chans st' !! c = Some ch' -> In a (buf ch') ->
       a = alert \/ exists ch, chans st !! c = Some ch /\ In a (buf ch)).
Proof.
  intros Hopen. unfold broadcast.
  destruct (broadcast_in_spec alert (elements (clients st)) st (NoDup_elements _))
    as (st' & Hb & Hti & Hgo & Hlog & Hout & Hin & Hcs).
  { intros c Hc. apply Hopen. now apply elem_of_elements in Hc. }
  exists st'. split; [exact Hb |]. split; [exact Hti |]. split; [exact Hgo |].
  split; [exact Hlog |].
  assert (Hcase : forall c ch', chans st' !! c = Some ch' ->
            exists ch, chans st !! c = Some ch /\
              (ch' = ch \/
               ((length (buf ch) <? sendCap)%nat = true /\
                ch' = {| buf := buf ch ++ [alert]; closed := false |}) \/
               ((length (buf ch) <? sendCap)%nat = false /\
                ch' = {| buf := buf ch; closed := true |}))).
  { intros c ch' Hch'.
    destruct (decide (c ∈ elements (clients st))) as [Hc | Hc].
    - destruct (is_open_lookup st c) as (ch & Hch & _).
      { apply Hopen. now apply elem_of_elements in Hc. }
      rewrite (Hin c ch Hc Hch) in Hch'. injection Hch' as <-.
      exists ch. split; [exact Hch |]. right.
      destruct (length (buf ch) <? sendCap)%nat; [left | right]; now split.
    - rewrite (Hout c Hc) in Hch'. exists ch'. split; [exact Hch' | now left]. }
  split; [| split].
  - intros c Hc. apply Hcs in Hc as [Hc Hnot].
    destruct (is_open_lookup st c (Hopen c Hc)) as (ch & Hch & Hcl).
    assert (Hel : c ∈ elements (clients st)) by now apply elem_of_elements.
    unfold is_open. rewrite (Hin c ch Hel Hch).
    destruct (length (buf ch) <? sendCap)%nat eqn:Hroom; [reflexivity |].
    exfalso. apply Hnot. split; [exact Hel |].
    now rewrite (full_no_room st c ch Hch), Hroom.
  - intros Hbound c ch' Hch'.
    destruct (Hcase c ch' Hch') as (ch & Hch & [-> | [[Hroom ->] | [_ ->]]]);
      cbn [buf]; try now apply (Hbound c ch).
    rewrite length_app. cbn [length]. apply Nat.ltb_lt in Hroom. lia.
  - intros c ch' a Hch' Ha.
    destruct (Hcase c ch' Hch') as (ch & Hch & [-> | [[_ ->] | [_ ->]]]);
      cbn [buf] in Ha.
    + right. now exists ch.
    + apply in_app_iff in Ha as [Ha | [<- | []]]; [right; now exists ch | now left].
    + right. now exists ch.
Qed.

Lemma In_insert_goroutine (gs : list goroutine) (g : nat) (r x : goroutine) :
  In x (<[g := r]> gs) -> x = r \/ In x gs.
Proof.
  revert g. induction gs as [| a gs IH]; intros [| g]; cbn; try tauto.
  - intros [<- | H]; tauto.
  - intros [<- | H]; [tauto |]. destruct (IH g H); tauto.
Qed.

Lemma In_delete_goroutine (gs : list goroutine) (g : nat) (x : goroutine) :
  In x (delete g gs) -> In x gs.
Proof.
  intros H. apply list_elem_of_In. apply list_elem_of_In in H.
  eapply elem_of_sublist; [exact H | apply sublist_delete].
Qed.

(** The three properties of the channels hold together along every step,
    and a step from a state that has them does not panic. *)
Lemma step_keeps_channels (st : state) (ev : event) :
  support.clients_open st -> support.queues_bounded st -> support.alerts_due st ->
  step st ev <> Err Panic /\
  forall st', step st ev = Ok st' ->
    support.clients_open st' /\ support.queues_bounded st' /\ support.alerts_due st'.
Proof.
  intros Hopen Hbound [Hdue Hgo].
  destruct ev as [req | id | req v now | | | g v now | g | g now | g w]; cbn [step].
  - split; [discriminate |]. intros st' [= <-]. unfold trackPriceHandler.
    destruct (_ || _ || _); cbn [snd]; now repeat split.
  - split; [discriminate |]. intros st' [= <-]. cbn. now repeat split.
  - split; [discriminate |]. intros st' [= <-]. unfold checkPriceHandler.
    destruct (_ || _); cbn [snd]; [now repeat split |].
    destruct (scrapePrice v) as [[priceString price] | err]; cbn [snd];
      [| now repeat split].
    destruct (price <=? check_TargetPrice req)%float eqn:Hle; cbn [snd];
      [| now repeat split].
    split; [exact Hopen |]. split; [exact Hbound |]. split; [exact Hdue |].
    cbn. intros tempID' req' price' ps' Hin.
    apply in_app_iff in Hin as [Hin | [[= <- <- <- <-] | []]]; [| exact Hle].
    now apply (Hgo tempID' req' price' ps').
  - split; [discriminate |]. intros st' [= <-]. unfold handleWebSocket.
    set (c := fresh (dom (chans st))).
    split; [| split; [| split]].
    + intros c' Hc'. unfold is_open. cbn.
      destruct (decide (c' = c)) as [-> | Hne].
      * now rewrite lookup_insert_eq.
      * rewrite lookup_insert_ne by congruence. apply Hopen.
        cbn in Hc'. apply elem_of_union in Hc' as [Hc' | Hc']; [| exact Hc'].
        apply elem_of_singleton in Hc'. contradiction.
    + intros c' ch' Hch'. cbn in Hch'.
      apply lookup_insert_Some in Hch' as [[_ <-] | [_ Hch']];
        [cbn; lia | now apply (Hbound c' ch')].
    + intros c' ch' a Hch' Ha. cbn in Hch'.
      apply lookup_insert_Some in Hch' as [[_ <-] | [_ Hch']];
        [destruct Ha | now apply (Hdue c' ch' a)].
    + cbn. intros tempID' req' price' ps' Hin.
      apply in_app_iff in Hin as [Hin | [Hin | []]]; [| discriminate].
      now apply (Hgo tempID' req' price' ps').
  - split; [discriminate |]. intros st' [= <-]. unfold tick. cbn.
    split; [exact Hopen |]. split; [exact Hbound |]. split; [exact Hdue |].
    intros tempID' req' price' ps' Hin.
    apply in_app_iff in Hin as [Hin | Hin]; [now apply (Hgo tempID' req' price' ps') |].
    unfold launched in Hin. apply in_map_iff in Hin as (e & He & _). discriminate.
  - destruct (goroutines st !! g) as [[id item | | |] |] eqn:Hg;
      try (split; [discriminate | discriminate]).
    unfold checkAndNotify_scraped.
    destruct (scrapePrice v) as [[priceString price] | err].
    + destruct (price <=? TargetPrice item)%float eqn:Hle.
      * match goal with |- context [broadcast ?a st] => set (alert := a) end.
        destruct (broadcast_keeps alert st Hopen)
          as (stb & -> & Hti & Hgs & Hlog & Hopen' & Hbound' & Hfrom).
        split; [discriminate |]. intros st' [= <-].
        split; [exact Hopen' |]. split; [now apply Hbound' |]. split.
        -- intros c ch' a Hch' Ha. cbn in Hch'.
           destruct (Hfrom c ch' a Hch' Ha) as [-> | (ch & Hch & Hin)];
             [exact Hle | now apply (Hdue c ch a)].
        -- cbn. rewrite Hgs. intros tempID' req' price' ps' Hin.
           apply In_insert_goroutine in Hin as [Hin | Hin]; [discriminate |].
           now apply (Hgo tempID' req' price' ps').
      * split; [discriminate |]. intros st' [= <-].
        split; [exact Hopen |]. split; [exact Hbound |]. split; [exact Hdue |].
        cbn. intros tempID' req' price' ps' Hin.
        apply In_delete_goroutine in Hin. now apply (Hgo tempID' req' price' ps').
    + split; [discriminate |]. intros st' [= <-].
      split; [exact Hopen |]. split; [exact Hbound |]. split; [exact Hdue |].
      cbn. intros tempID' req' price' ps' Hin.
      apply In_delete_goroutine in Hin. now apply (Hgo tempID' req' price' ps').
  - destruct (goroutines st !! g) as [[| id | |] |] eqn:Hg;
      try (split; [discriminate | discriminate]).
    split; [discriminate |]. intros st' [= <-].
    split; [exact Hopen |]. split; [exact Hbound |]. split; [exact Hdue |].
    cbn. intros tempID' req' price' ps' Hin.
    apply In_delete_goroutine in Hin. now apply (Hgo tempID' req' price' ps').
  - destruct (goroutines st !! g) as [[| | tempID req price priceString |] |] eqn:Hg;
      try (split; [discriminate | discriminate]).
    unfold runImmediateAlert.
    match goal with |- context [broadcast ?a st] => set (alert := a) end.
    destruct (broadcast_keeps alert st Hopen)
      as (stb & -> & Hti & Hgs & Hlog & Hopen' & Hbound' & Hfrom).
    split; [discriminate |]. intros st' [= <-].
    split; [exact Hopen' |]. split; [now apply Hbound' |]. split.
    + intros c ch' a Hch' Ha. cbn in Hch'.
      destruct (Hfrom c ch' a Hch' Ha) as [-> | (ch & Hch & Hin)];
        [| now apply (Hdue c ch a)].
      cbn. apply (Hgo tempID req price priceString).
      apply list_elem_of_In. now apply list_elem_of_lookup_2 in Hg.
    + cbn. rewrite Hgs. intros tempID' req' price' ps' Hin.
      apply In_delete_goroutine in Hin. now apply (Hgo tempID' req' price' ps').
  - destruct (goroutines st !! g) as [[| | | c] |] eqn:Hg;
      try (split; [discriminate | discriminate]).
    unfold writePump_step.
    destruct (chans st !! c) as [ch |] eqn:Hch; [| split; discriminate].
    assert (Hpop : forall a rest cs,
              buf ch = a :: rest -> cs ⊆ clients st ->
              let st1 := set_clients st cs
                           (<[c := {| buf := rest; closed := closed ch |}]> (chans st)) in
              support.clients_open st1 /\ support.queues_bounded st1 /\
              (forall c' ch' a', chans st1 !! c' = Some ch' -> In a' (buf ch') ->
                 (alert_CurrentPrice a' <=? alert_TargetPrice a')%float = true)).
    { intros a rest cs Hbuf Hcs st1. subst st1. split; [| split].
      - intros c' Hc'. cbn in Hc'. unfold is_open. cbn.
        destruct (decide (c' = c)) as [-> | Hne].
        + rewrite lookup_insert_eq. cbn.
          pose proof (Hopen c (Hcs c Hc')) as Ho. unfold is_open in Ho.
          now rewrite Hch in Ho.
        + rewrite lookup_insert_ne by congruence. apply Hopen, Hcs, Hc'.
      - intros c' ch' Hch'. cbn in Hch'.
        apply lookup_insert_Some in Hch' as [[_ <-] | [_ Hch']];
          [| now apply (Hbound c' ch')].
        cbn. pose proof (Hbound c ch Hch) as Hb. rewrite Hbuf in Hb. cbn in Hb. lia.
      - intros c' ch' a' Hch' Ha'. cbn in Hch'.
        apply lookup_insert_Some in Hch' as [[_ <-] | [_ Hch']];
          [| now apply (Hdue c' ch' a')].
        cbn in Ha'. apply (Hdue c ch a' Hch). rewrite Hbuf. now right. }
    destruct (buf ch) as [| a rest] eqn:Hbuf.
    + destruct (closed ch); [| split; discriminate].
      split; [discriminate |]. intros st' [= <-]. cbn.
      split; [| split; [exact Hbound | split; [exact Hdue |]]].
      * intros c' Hc'. cbn in Hc'. apply elem_of_difference in Hc' as [Hc' _].
        now apply Hopen.
      * cbn. intros tempID' req' price' ps' Hin.
        apply In_delete_goroutine in Hin. now apply (Hgo tempID' req' price' ps').
    + destruct w.
      * split; [discriminate |]. intros st' [= <-].
        destruct (Hpop a rest (clients st ∖ {[c]}) eq_refl) as (H1 & H2 & H3).
        { intros x Hx. now apply elem_of_difference in Hx as [Hx _]. }
        split; [exact H1 |]. split; [exact H2 |]. split; [exact H3 |].
        cbn. intros tempID' req' price' ps' Hin.
        apply In_delete_goroutine in Hin. now apply (Hgo tempID' req' price' ps').
      * split; [discriminate |]. intros st' [= <-].
        destruct (Hpop a rest (clients st) eq_refl) as (H1 & H2 & H3).
        { intros x Hx. exact Hx. }
        split; [exact H1 |]. split; [exact H2 |]. split; [exact H3 |].
        exact Hgo.
Qed.

End Invariants.

(** ** The registry *)

Lemma state_eta (st : main.state) :
  main.State (main.clients st) (main.chans st) (main.trackingItems st)
    (main.goroutines st) (main.log st) = st.
Proof. now destruct st. Qed.

(** X11: an untrack request always succeeds and leaves the id untracked;
    asking twice is the same as asking once, asking for an id that is not
    tracked changes nothing at all, and no other id is touched. *)
Theorem untrackPriceHandler_idempotent (id : string) (st : main.state) :
  main.track_success (fst (main.untrackPriceHandler id st)) = true /\
  main.trackingItems (snd (main.untrackPriceHandler id st)) !! id = None /\
  snd (main.untrackPriceHandler id (snd (main.untrackPriceHandler id st)))
  = snd (main.untrackPriceHandler id st) /\
  (main.trackingItems st !! id = None -> snd (main.untrackPriceHandler id st) = st) /\
  (forall id', id' ≠ id ->
     main.trackingItems (snd (main.untrackPriceHandler id st)) !! id'
     = main.trackingItems st !! id').
Proof.
  unfold main.untrackPriceHandler, main.set_trackingItems. cbn.
  split; [reflexivity |]. split; [apply lookup_delete_eq |].
  split; [now rewrite delete_delete_eq |]. split.
  - intros Hnone. rewrite delete_id by exact Hnone. apply state_eta.
  - intros id' Hne. apply lookup_delete_ne. congruence.
Qed.

(** X12: tracking an id that was not tracked and then untracking it gives
    back the state there was before. *)
Theorem track_then_untrack (req : main.TrackingRequest) (st : main.state) :
  main.trackingItems st !! main.ID req = None ->
  snd (main.untrackPriceHandler (main.ID req) (snd (main.trackPriceHandler req st))) = st.
Proof.
  intros Hnone. unfold main.trackPriceHandler, main.untrackPriceHandler.
  destruct (_ || _ || _); cbn.
  - unfold main.set_trackingItems. rewrite delete_id by exact Hnone. apply state_eta.
  - unfold main.set_trackingItems. cbn.
    rewrite delete_insert_eq, delete_id by exact Hnone. apply state_eta.
Qed.

Lemma track_then_untrack_witness :
  snd (main.untrackPriceHandler (main.ID sample.itemA)
         (snd (main.trackPriceHandler sample.itemA main.init))) = main.init.
Proof.
  apply (track_then_untrack sample.itemA main.init). reflexivity.
Defined.

Lemma step_items_valid (st : main.state) (ev : main.event) (st' : main.state) :
  support.items_valid st -> main.step st ev = Ok st' -> support.items_valid st'.
Proof.
  intros Hvalid Hstep.
  destruct ev as [req | id | req v now | | | g v now | g | g now | g w].
  - cbn [main.step] in Hstep. injection Hstep as <-.
    unfold main.trackPriceHandler.
    destruct (scraper.isEmpty (main.URL req)) eqn:Hurl; cbn; [exact Hvalid |].
    destruct (main.TargetPrice req <=? 0)%float eqn:Htarget; cbn; [exact Hvalid |].
    destruct (scraper.isEmpty (main.ID req)) eqn:Hid; cbn; [exact Hvalid |].
    intros id item Hitem. cbn in Hitem.
    apply lookup_insert_Some in Hitem as [[<- <-] | [_ Hitem]];
      [now repeat split | now apply Hvalid].
  - cbn [main.step] in Hstep. injection Hstep as <-. cbn.
    intros id' item Hitem. cbn in Hitem.
    apply lookup_delete_Some in Hitem as [_ Hitem]. now apply Hvalid.
  - apply step_effect in Hstep as (Hti & _). unfold support.items_valid.
    now rewrite Hti.
  - apply step_effect in Hstep as (Hti & _). unfold support.items_valid.
    now rewrite Hti.
  - apply step_effect in Hstep as (Hti & _). unfold support.items_valid.
    now rewrite Hti.
  - apply step_effect in Hstep as (? & ? & _ & Hti & _). unfold support.items_valid.
    now rewrite Hti.
  - apply step_effect in Hstep as (id & _ & Hti & _). unfold support.items_valid.
    rewrite Hti. intros id' item Hitem.
    apply lookup_delete_Some in Hitem as [_ Hitem]. now apply Hvalid.
  - apply step_effect in Hstep as (? & ? & ? & ? & _ & Hti & _).
    unfold support.items_valid. now rewrite Hti.
  - apply step_effect in Hstep as (? & _ & Hti & _). unfold support.items_valid.
    now rewrite Hti.
Qed.

Lemma init_items_valid : support.items_valid main.init.
Proof. intros id item H. cbn in H. now rewrite lookup_empty in H. Qed.

(** X13: in every state the server reaches, every tracked item is stored
    under its own id, and its URL is not empty, its id is not empty and its
    target price is not [<= 0]: only requests that passed the checks of
    [trackPriceHandler] are ever tracked. *)
Theorem tracked_items_valid (evs : list main.event) (st : main.state)
    (id : string) (item : main.TrackingRequest) :
  main.run main.init evs = Ok st ->
  main.trackingItems st !! id = Some item ->
  main.ID item = id /\
  scraper.isEmpty (main.URL item) = false /\
  scraper.isEmpty (main.ID item) = false /\
  (main.TargetPrice item <=? 0)%float = false.
Proof.
  intros Hrun.
  apply (run_preserves support.items_valid step_items_valid evs main.init st
           init_items_valid Hrun).
Qed.

Lemma tracked_items_valid_witness :
  main.ID sample.itemA = "A"%string /\
  scraper.isEmpty (main.URL sample.itemA) = false /\
  scraper.isEmpty (main.ID sample.itemA) = false /\
  (main.TargetPrice sample.itemA <=? 0)%float = false.
Proof.
  apply (tracked_items_valid (take 3 sample.in_turn)
           (match main.run main.init (take 3 sample.in_turn) with
            | Ok st => st
            | Err _ => main.init
            end) "A" sample.itemA);
    vm_compute; reflexivity.
Defined.

(** X14: the list of tracked items that the server returns holds exactly
    the items of the registry, each once: an item is listed if and only if
    it is stored under its id, no two listed items share an id, and there
    are as many as the registry has entries. *)
Theorem tracked_items_listed (evs : list main.event) (st : main.state) :
  main.run main.init evs = Ok st ->
  (forall item, In item (main.getTrackedItemsHandler st)
                <-> main.trackingItems st !! main.ID item = Some item) /\
  NoDup (List.map main.ID (main.getTrackedItemsHandler st)) /\
  length (main.getTrackedItemsHandler st) = size (main.trackingItems st).
Proof.
  intros Hrun.
  pose proof (run_preserves support.items_valid step_items_valid evs main.init st
                init_items_valid Hrun) as Hvalid.
  unfold main.getTrackedItemsHandler. split; [| split].
  - intros item. rewrite in_map_iff. split.
    + intros ([id item'] & <- & Hin). cbn [snd].
      apply list_elem_of_In, elem_of_map_to_list in Hin.
      destruct (Hvalid id item' Hin) as [-> _]. exact Hin.
    + intros Hitem. exists (main.ID item, item). split; [reflexivity |].
      now apply list_elem_of_In, elem_of_map_to_list.
  - assert (Heq : List.map main.ID (List.map snd (map_to_list (main.trackingItems st)))
                  = (map_to_list (main.trackingItems st)).*1).
    { rewrite List.map_map. apply List.map_ext_in.
      intros [id item] Hin. cbn.
      apply list_elem_of_In, elem_of_map_to_list in Hin.
      now destruct (Hvalid id item Hin). }
    rewrite Heq. apply NoDup_fst_map_to_list.
  - rewrite List.length_map. apply length_map_to_list.
Qed.

Lemma tracked_items_listed_witness :
  exists st,
    main.run main.init (take 3 sample.in_turn) = Ok st /\
    (forall item, In item (main.getTrackedItemsHandler st)
                  <-> main.trackingItems st !! main.ID item = Some item) /\
    NoDup (List.map main.ID (main.getTrackedItemsHandler st)) /\
    length (main.getTrackedItemsHandler st) = size (main.trackingItems st).
Proof.
  eexists. split; [vm_compute; reflexivity |].
  apply (tracked_items_listed (take 3 sample.in_turn)).
  vm_compute. reflexivity.
Defined.

(** ** The channels *)

Lemma init_channels :
  support.clients_open main.init /\ support.queues_bounded main.init /\
  support.alerts_due main.init.
Proof.
  split; [| split; [| split]].
  - intros c Hc. cbn in Hc. now apply elem_of_empty in Hc.
  - intros c ch Hch. cbn in Hch. now rewrite lookup_empty in Hch.
  - intros c ch a Hch. cbn in Hch. now rewrite lookup_empty in Hch.
  - intros tempID req price ps [].
Qed.

Lemma run_keeps_channels (evs : list main.event) :
  forall st,
    support.clients_open st -> support.queues_bounded st -> support.alerts_due st ->
    main.run st evs <> Err main.Panic /\
    forall st', main.run st evs = Ok st' ->
      support.clients_open st' /\ support.queues_bounded st' /\ support.alerts_due st'.
Proof.
  induction evs as [| ev rest IH]; intros st Hopen Hbound Hdue; cbn [main.run].
  - split; [discriminate |]. intros st' [= <-].
    split; [exact Hopen | split; [exact Hbound | exact Hdue]].
  - destruct (step_keeps_channels st ev Hopen Hbound Hdue) as [Hnp Hkeep].
    destruct (main.step st ev) as [st1 | f].
    + destruct (Hkeep st1 eq_refl) as (H1 & H2 & H3). now apply IH.
    + split; [congruence | discriminate].
Qed.

(** X15: as long as the sections that send alerts do not overlap one
    another, the server never panics: no sequence of requests, ticks and
    goroutine steps from its initial state ends in a send on a closed
    channel or in the close of a channel that is closed already.  In every
    state it reaches, the channel of every registered client is open and no
    queue holds more than 256 alerts. *)
Theorem run_never_panics (evs : list main.event) :
  main.run main.init evs <> Err main.Panic /\
  forall st, main.run main.init evs = Ok st ->
    (forall c, c ∈ main.clients st -> main.is_open st c = true) /\
    (forall c, (length (main.queue st c) <= 256)%nat).
Proof.
  destruct init_channels as (Hopen & Hbound & Hdue).
  destruct (run_keeps_channels evs main.init Hopen Hbound Hdue) as [Hnp Hkeep].
  split; [exact Hnp |]. intros st Hrun.
  destruct (Hkeep st Hrun) as (H1 & H2 & _). split; [exact H1 |].
  intros c. unfold main.queue.
  destruct (main.chans st !! c) as [ch |] eqn:Hch; [now apply (H2 c ch) | cbn; lia].
Qed.

(** X16: every alert that ever stands in a client's queue has a current
    price that is [<=] its target price, whether it comes from a tracked
    item or from a one-shot check. *)
Theorem queued_alerts_are_due (evs : list main.event) (st : main.state)
    (c : main.client) (a : main.PriceAlert) :
  main.run main.init evs = Ok st ->
  In a (main.queue st c) ->
  (main.alert_CurrentPrice a <=? main.alert_TargetPrice a)%float = true.
Proof.
  intros Hrun Ha.
  destruct init_channels as (Hopen & Hbound & Hdue).
  destruct (run_keeps_channels evs main.init Hopen Hbound Hdue) as [_ Hkeep].
  destruct (Hkeep st Hrun) as (_ & _ & [Hq _]).
  unfold main.queue in Ha.
  destruct (main.chans st !! c) as [ch |] eqn:Hch; [| destruct Ha].
  now apply (Hq c ch a).
Qed.

Lemma queued_alerts_are_due_witness :
  exists st a,
    main.run main.init sample.refire = Ok st /\
    In a (main.queue st 1%positive) /\
    (main.alert_CurrentPrice a <=? main.alert_TargetPrice a)%float = true.
Proof.
  eexists _, _. split; [vm_compute; reflexivity |].
  split; [vm_compute; left; reflexivity |].
  eapply (queued_alerts_are_due sample.refire _ 1%positive).
  - vm_compute. reflexivity.
  - vm_compute. left. reflexivity.
Defined.

(** ** The handlers and goroutines, one by one *)

Lemma onHTML_set (texts : list string) (priceString : string) :
  scraper.isEmpty priceString = false ->
  main.onHTML texts priceString = priceString.
Proof.
  revert priceString. induction texts as [| t rest IH]; intros p Hp; cbn [main.onHTML];
    [reflexivity |].
  rewrite Hp. now apply IH.
Qed.

Lemma onHTML_blank (before rest : list string) :
  forallb (fun t => scraper.isEmpty (strings.TrimSpace t)) before = true ->
  main.onHTML (before ++ rest) EmptyString = main.onHTML rest EmptyString.
Proof.
  induction before as [| t before IH]; intros Hb; [reflexivity |].
  cbn [forallb] in Hb. apply andb_true_iff in Hb as [Ht Hb].
  cbn [app main.onHTML scraper.isEmpty].
  destruct (strings.TrimSpace t); [now apply IH | discriminate].
Qed.

(** X17: [scrapePrice] reads the first matched element whose text is not
    blank and ignores every element after it: the price string it returns is
    the trimmed text of that element, and the price is what [ParseFloat]
    makes of it once commas and rupee signs are removed and it is trimmed
    again.  If all matched elements are blank it reports that no price was
    found. *)
Theorem scrapePrice_first_text (before : list string) (text : string) (after : list string) :
  forallb (fun t => scraper.isEmpty (strings.TrimSpace t)) before = true ->
  scraper.isEmpty (strings.TrimSpace text) = false ->
  main.scrapePrice (main.Visited (before ++ text :: after))
  = match
      strconv.ParseFloat
        (strings.TrimSpace
           (strings.ReplaceAll
              (strings.ReplaceAll (strings.TrimSpace text) "," EmptyString)
              main.rupee EmptyString))
    with
    | Ok price => Ok (strings.TrimSpace text, price)
    | Err err => Err (main.ErrParsePrice err)
    end /\
  main.scrapePrice (main.Visited (before ++ text :: after))
  = main.scrapePrice (main.Visited [text]) /\
  main.scrapePrice (main.Visited before) = Err main.ErrPriceNotFound.
Proof.
  intros Hb Ht. unfold main.scrapePrice. split; [| split].
  - rewrite (onHTML_blank before (text :: after) Hb).
    cbn [main.onHTML scraper.isEmpty]. rewrite onHTML_set by exact Ht.
    now rewrite Ht.
  - rewrite (onHTML_blank before (text :: after) Hb).
    cbn [main.onHTML scraper.isEmpty]. now rewrite !onHTML_set by exact Ht.
  - pose proof (onHTML_blank before [] Hb) as H. rewrite app_nil_r in H.
    now rewrite H.
Qed.

Lemma scrapePrice_first_text_witness :
  main.scrapePrice (main.Visited ([" "; EmptyString] ++ " 60,100 " :: ["59,000"]))%string
  = Ok ("60,100"%string, 60100%float) /\
  main.scrapePrice (main.Visited ([" "; EmptyString] ++ " 60,100 " :: ["59,000"]))%string
  = main.scrapePrice (main.Visited [" 60,100 "%string]) /\
  main.scrapePrice (main.Visited [" "; EmptyString]%string) = Err main.ErrPriceNotFound.
Proof.
  apply (scrapePrice_first_text [" "; EmptyString]%string " 60,100 " ["59,000"%string]);
    vm_compute; reflexivity.
Defined.

(** X18: a check-price request never touches the tracked items, the
    clients, the channels or the log.  It changes the state only if its
    response says that the price is below the target, and then by exactly
    one goroutine, which carries the price and the price string of the
    response; a request that is invalid or whose scrape fails is answered
    with a failure. *)
Theorem checkPriceHandler_response_tells
    (req : main.PriceCheckRequest) (v : main.visit) (now : main.time) (st : main.state) :
  let r := main.checkPriceHandler req v now st in
  main.trackingItems (snd r) = main.trackingItems st /\
  main.clients (snd r) = main.clients st /\
  main.chans (snd r) = main.chans st /\
  main.log (snd r) = main.log st /\
  (if main.resp_IsBelowTarget (fst r)
   then main.resp_Success (fst r) = true /\
        main.goroutines (snd r)
        = main.goroutines st ++
            [main.immediateAlert (main.tempID now) req
               (main.resp_CurrentPrice (fst r)) (main.resp_PriceString (fst r))]
   else snd r = st) /\
  (main.resp_Success (fst r) = false <->
   (scraper.isEmpty (main.check_URL req) || (main.check_TargetPrice req <=? 0)%float
    || negb (is_ok (main.scrapePrice v))) = true).
Proof.
  unfold main.checkPriceHandler.
  destruct (scraper.isEmpty (main.check_URL req) || (main.check_TargetPrice req <=? 0)%float);
    cbn [orb].
  - cbn. repeat split; auto.
  - destruct (main.scrapePrice v) as [[priceString price] | err]; cbn [is_ok negb].
    + destruct (price <=? main.check_TargetPrice req)%float eqn:Hle; cbn;
        repeat split; auto; discriminate.
    + cbn. repeat split; auto.
Qed.

(** X19: a check whose scrape fails, or finds a price above the target of
    its snapshot, ends without any effect: nothing is sent or logged and
    the item stays tracked. *)
Theorem check_without_crossing
    (st : main.state) (g : nat) (id : string) (item : main.TrackingRequest)
    (v : main.visit) (now : main.time) :
  main.goroutines st !! g = Some (main.checkAndNotify id item) ->
  match main.scrapePrice v with
  | Ok (_, price) => (price <=? main.TargetPrice item)%float = false
  | Err _ => True
  end ->
  main.step st (main.Scraped g v now)
  = Ok (main.set_goroutines st (delete g (main.goroutines st))).
Proof.
  intros Hg Hv. cbn [main.step]. rewrite Hg. unfold main.checkAndNotify_scraped.
  destruct (main.scrapePrice v) as [[priceString price] | err]; [| reflexivity].
  now rewrite Hv.
Qed.

Lemma check_without_crossing_witness :
  main.step sample.checking (main.Scraped 1 (main.Visited ["120"%string]) sample.noon)
  = Ok (main.set_goroutines sample.checking (delete 1%nat (main.goroutines sample.checking))).
Proof.
  apply (check_without_crossing sample.checking 1 "A" sample.itemA);
    vm_compute; reflexivity.
Defined.

(** X20: a broadcast among clients with open channels returns, whatever
    the number of full queues: the clients left are exactly those whose
    queue had room, each with the alert appended to its queue; every client
    whose queue was full has its channel closed and its queue unchanged;
    channels of others are untouched, and the number of clients never grows. *)
Theorem broadcast_keeps_clients_with_room (alert : main.PriceAlert) (st : main.state) :
  (forall c, c ∈ main.clients st -> main.is_open st c = true) ->
  exists st',
    main.broadcast alert st = Some st' /\
    (forall c, c ∈ main.clients st' <-> c ∈ main.clients st /\ main.is_full st c = false) /\
    (forall c, c ∈ main.clients st' ->
       main.queue st' c = main.queue st c ++ [alert] /\ main.is_open st' c = true) /\
    (forall c, c ∈ main.clients st -> main.is_full st c = true ->
       main.queue st' c = main.queue st c /\ main.is_open st' c = false) /\
    (forall c, c ∉ main.clients st -> main.chans st' !! c = main.chans st !! c) /\
    (size (main.clients st') <= size (main.clients st))%nat.
Proof.
  intros Hopen. unfold main.broadcast.
  destruct (broadcast_in_spec alert (elements (main.clients st)) st (NoDup_elements _))
    as (st' & Hb & _ & _ & _ & Hout & Hin & Hcs).
  { intros c Hc. apply Hopen. now apply elem_of_elements in Hc. }
  exists st'. split; [exact Hb |].
  assert (Hset : forall c, c ∈ main.clients st' <->
                           c ∈ main.clients st /\ main.is_full st c = false).
  { intros c. rewrite Hcs, elem_of_elements. split.
    - intros [Hc Hn]. split; [exact Hc |].
      destruct (main.is_full st c); [exfalso; now apply Hn | reflexivity].
    - intros [Hc Hf]. split; [exact Hc |]. intros [_ Hf']. congruence. }
  assert (Hch' : forall c, c ∈ main.clients st ->
            exists ch, main.chans st !! c = Some ch /\
              main.chans st' !! c =
                Some (if main.is_full st c
                      then {| main.buf := main.buf ch; main.closed := true |}
                      else {| main.buf := main.buf ch ++ [alert]; main.closed := false |})).
  { intros c Hc.
    destruct (is_open_lookup st c (Hopen c Hc)) as (ch & Hch & _).
    exists ch. split; [exact Hch |].
    rewrite (Hin c ch) by (now apply elem_of_elements || exact Hch).
    rewrite (full_no_room st c ch Hch).
    now destruct (length (main.buf ch) <? main.sendCap)%nat. }
  split; [exact Hset |]. split; [| split; [| split]].
  - intros c Hc. apply Hset in Hc as [Hc Hf].
    destruct (Hch' c Hc) as (ch & Hch & Hnew). rewrite Hf in Hnew.
    unfold main.queue, main.is_open. now rewrite Hnew, Hch.
  - intros c Hc Hf.
    destruct (Hch' c Hc) as (ch & Hch & Hnew). rewrite Hf in Hnew.
    unfold main.queue, main.is_open. now rewrite Hnew, Hch.
  - intros c Hc. apply Hout. now rewrite elem_of_elements.
  - apply subseteq_size. intros c Hc. now apply Hset in Hc as [Hc _].
Qed.

Lemma broadcast_keeps_clients_with_room_witness :
  exists st',
    main.broadcast sample.alertA sample.three_clients = Some st' /\
    (forall c, c ∈ main.clients st' <->
               c ∈ main.clients sample.three_clients /\
               main.is_full sample.three_clients c = false) /\
    (forall c, c ∈ main.clients st' ->
       main.queue st' c = main.queue sample.three_clients c ++ [sample.alertA] /\
       main.is_open st' c = true) /\
    (forall c, c ∈ main.clients sample.three_clients ->
       main.is_full sample.three_clients c = true ->
       main.queue st' c = main.queue sample.three_clients c /\
       main.is_open st' c = false) /\
    (forall c, c ∉ main.clients sample.three_clients ->
       main.chans st' !! c = main.chans sample.three_clients !! c) /\
    (size (main.clients st') <= size (main.clients sample.three_clients))%nat.
Proof.
  apply (broadcast_keeps_clients_with_room sample.alertA sample.three_clients).
  intros c Hc. cbn [sample.three_clients main.clients] in Hc.
  rewrite !elem_of_union, !elem_of_singleton in Hc.
  destruct Hc as [[-> | ->] | ->]; vm_compute; reflexivity.
Defined.

(** X21: a new WebSocket connection, among clients with open channels,
    registers one client that was neither registered nor known before,
    with an open and empty queue, and starts its write pump; the other
    clients, every other channel and the tracked items are as before. *)
Theorem handleWebSocket_adds_fresh_client (st : main.state) :
  (forall c, c ∈ main.clients st -> main.is_open st c = true) ->
  let c := fresh (dom (main.chans st)) in
  let st' := main.handleWebSocket st in
  (c ∉ main.clients st) /\
  main.chans st !! c = None /\
  main.clients st' = {[c]} ∪ main.clients st /\
  size (main.clients st') = S (size (main.clients st)) /\
  main.queue st' c = [] /\
  main.is_open st' c = true /\
  (forall c', c' ≠ c -> main.chans st' !! c' = main.chans st !! c') /\
  main.goroutines st' = main.goroutines st ++ [main.writePump c] /\
  main.trackingItems st' = main.trackingItems st.
Proof.
  intros Hopen c st'.
  assert (Hnone : main.chans st !! c = None).
  { apply not_elem_of_dom. apply is_fresh. }
  assert (Hnew : c ∉ main.clients st).
  { intros Hc. destruct (is_open_lookup st c (Hopen c Hc)) as (ch & Hch & _).
    congruence. }
  subst st'. unfold main.handleWebSocket. fold c. cbn.
  split; [exact Hnew |]. split; [exact Hnone |]. split; [reflexivity |].
  split; [| split; [| split; [| split; [| split]]]].
  - rewrite size_union by (now apply disjoint_singleton_l).
    now rewrite size_singleton.
  - unfold main.queue. cbn. now rewrite lookup_insert_eq.
  - unfold main.is_open. cbn. now rewrite lookup_insert_eq.
  - intros c' Hne. apply lookup_insert_ne. congruence.
  - reflexivity.
  - reflexivity.
Qed.

Lemma handleWebSocket_adds_fresh_client_witness :
  let c := fresh (dom (main.chans sample.three_clients)) in
  let st' := main.handleWebSocket sample.three_clients in
  (c ∉ main.clients sample.three_clients) /\
  main.chans sample.three_clients !! c = None /\
  main.clients st' = {[c]} ∪ main.clients sample.three_clients /\
  size (main.clients st') = S (size (main.clients sample.three_clients)) /\
  main.queue st' c = [] /\
  main.is_open st' c = true /\
  (forall c', c' ≠ c -> main.chans st' !! c' = main.chans sample.three_clients !! c') /\
  main.goroutines st' = main.goroutines sample.three_clients ++ [main.writePump c] /\
  main.trackingItems st' = main.trackingItems sample.three_clients.
Proof.
  apply (handleWebSocket_adds_fresh_client sample.three_clients).
  intros c Hc. cbn [sample.three_clients main.clients] in Hc.
  rewrite !elem_of_union, !elem_of_singleton in Hc.
  destruct Hc as [[-> | ->] | ->]; vm_compute; reflexivity.
Defined.

(** X22: the write pump of a client whose channel was closed still writes
    every alert left in the queue, one per iteration, and returns at the
    iteration after the last: it leaves the pool and its client is not
    registered any more. *)
Theorem writePump_drains_closed_channel (q : list main.PriceAlert) :
  forall (st : main.state) (g : nat) (c : main.client),
    main.goroutines st !! g = Some (main.writePump c) ->
    main.chans st !! c = Some {| main.buf := q; main.closed := true |} ->
    exists st',
      main.run st (List.repeat (main.Pump g false) (length q) ++ [main.Pump g false])
      = Ok st' /\
      main.goroutines st' = delete g (main.goroutines st) /\
      (c ∉ main.clients st') /\
      main.queue st' c = [] /\
      main.trackingItems st' = main.trackingItems st.
Proof.
  induction q as [| a q IH]; intros st g c Hg Hc.
  - cbn [length List.repeat app main.run main.step]. rewrite Hg.
    unfold main.writePump_step. rewrite Hc. cbn.
    eexists. split; [reflexivity |]. cbn.
    split; [reflexivity |]. split; [| split; [| reflexivity]].
    + intros Hin. apply elem_of_difference in Hin as [_ Hin].
      apply Hin. now apply elem_of_singleton.
    + unfold main.queue. cbn. now rewrite Hc.
  - cbn [length List.repeat app main.run main.step]. rewrite Hg.
    unfold main.writePump_step. rewrite Hc. cbn [main.buf main.closed].
    set (st1 := main.set_clients st (main.clients st)
                  (<[c := {| main.buf := q; main.closed := true |}]> (main.chans st))).
    destruct (IH st1 g c) as (st' & Hrun & Hgo & Hcl & Hq & Hti).
    { exact Hg. }
    { subst st1. cbn. apply lookup_insert_eq. }
    exists st'. split; [exact Hrun |]. now repeat split.
Qed.

Lemma writePump_drains_closed_channel_witness :
  exists st',
    main.run sample3.closing
      (List.repeat (main.Pump 0 false) 2 ++ [main.Pump 0 false]) = Ok st' /\
    main.goroutines st' = delete 0%nat (main.goroutines sample3.closing) /\
    (1%positive ∉ main.clients st') /\
    main.queue st' 1%positive = [] /\
    main.trackingItems st' = main.trackingItems sample3.closing.
Proof.
  apply (writePump_drains_closed_channel [sample.alertA; sample.alertA]
           sample3.closing 0 1%positive); reflexivity.
Defined.

(** ** Checks, the registry and the selector cache *)

(** X23: after a tick that had to fall back on the general scrape, the
    selector the tracker keeps is the one that scrape returned, and on the
    page the price came from it yields that price again. *)
Theorem onTick_keeps_working_selector
    (t t' : tracker.Tracker) (first fallback : scraper.fetched)
    (push : tracker.pushed) (n : option tracker.notification)
    (e : scraper.error) (price : float) (sel : string) :
  scraper.ScrapePriceWithSelector first (tracker.Selector t) = Err e ->
  scraper.ScrapePrice fallback = Ok (price, sel) ->
  tracker.onTick t first fallback push = Some (t', n) ->
  tracker.Selector t' = sel /\
  scraper.ScrapePriceWithSelector fallback (tracker.Selector t') = Ok price.
Proof.
  intros Hfirst Hfall Htick.
  assert (Hsel : tracker.Selector t' = sel).
  { unfold tracker.onTick in Htick. rewrite Hfirst, Hfall in Htick.
    apply compare_frame in Htick as (_ & _ & _ & Hs & _). rewrite Hs.
    destruct (String.eqb_spec sel (tracker.Selector t)) as [Heq | Hne]; cbn [negb andb].
    - now symmetry.
    - assert (Hk : scraper.isEmpty sel = false).
      { apply withDocument_Ok in Hfall as (status & doc & _ & Hdoc).
        rewrite scrapeDocument_extract in Hdoc.
        apply firstSuccess_Ok in Hdoc as (s & Hin & _ & ->).
        now apply strategyId_known. }
      now rewrite Hk. }
  split; [exact Hsel |]. rewrite Hsel.
  apply withDocument_Ok in Hfall as (status & doc & -> & Hdoc).
  rewrite scrapeDocument_extract in Hdoc. now apply extract_replays.
Qed.

Lemma onTick_keeps_working_selector_witness :
  exists t' n,
    tracker.onTick sample.trackerA scraper.GetFailed
      (sample.ok_page sample.several_prices) tracker.PushSent = Some (t', n) /\
    tracker.Selector t' = ".a-offscreen"%string /\
    scraper.ScrapePriceWithSelector (sample.ok_page sample.several_prices)
      (tracker.Selector t') = Ok 18.5%float.
Proof.
  eexists _, _. split; [vm_compute; reflexivity |].
  eapply (onTick_keeps_working_selector sample.trackerA _ scraper.GetFailed
            (sample.ok_page sample.several_prices) tracker.PushSent _
            scraper.ErrGet 18.5%float ".a-offscreen");
    vm_compute; reflexivity.
Defined.

Section Checks.

Import main.

(** X24: an id for which no track request was ever made, and which is not
    the temporary id of a one-shot check, is on no alert in any queue, has
    no alert logged and is never in the registry, whatever else the server
    does. *)
Theorem never_tracked_never_alerted (id : string) (evs : list event) (st : state) :
  tracks id evs = false ->
  support.checksAs id evs = false ->
  run init evs = Ok st ->
  (forall c a, In a (queue st c) -> alert_ID a <> id) /\
  alertsFor id (log st) = 0%nat /\ trackingItems st !! id = None.
Proof.
  intros Htr Hch Hrun.
  assert (Hnone : trackingItems init !! id = None) by apply lookup_empty.
  assert (Hscr : id ∉ scraping init) by apply not_elem_of_nil.
  assert (Hone : id ∉ support.oneShots init) by apply not_elem_of_nil.
  destruct (quiet_while_untracked id evs init st Hnone Hscr Hone Htr Hch Hrun)
    as (Hq & Ha & Hn).
  split; [| split; [exact Ha | exact Hn]].
  intros c a Hin Hid. specialize (Hq c).
  change (support.alertsOf id (queue init c)) with (@nil PriceAlert) in Hq.
  apply suffix_nil_inv in Hq.
  assert (Ha' : In a (support.alertsOf id (queue st c))).
  { apply List.filter_In. split; [exact Hin |]. now apply String.eqb_eq. }
  rewrite Hq in Ha'. destruct Ha'.
Qed.

Lemma deliver_set_items (alert : PriceAlert) (st : state)
    (m : gmap string TrackingRequest) (c : client) :
  deliver alert (set_trackingItems st m) c
  = option_map (fun s => set_trackingItems s m) (deliver alert st c).
Proof.
  unfold deliver. cbn [set_trackingItems chans].
  destruct (chans st !! c) as [ch |]; [| reflexivity].
  destruct (closed ch); [reflexivity |].
  destruct (length (buf ch) <? sendCap)%nat; reflexivity.
Qed.

Lemma broadcast_in_set_items (alert : PriceAlert) (order : list client)
    (m : gmap string TrackingRequest) :
  forall st,
    broadcast_in order alert (set_trackingItems st m)
    = option_map (fun s => set_trackingItems s m) (broadcast_in order alert st).
Proof.
  induction order as [| c rest IH]; intros st; cbn [broadcast_in]; [reflexivity |].
  rewrite deliver_set_items.
  destruct (deliver alert st c) as [st1 |]; cbn [option_map]; [apply IH | reflexivity].
Qed.

(** X25: a check never looks at the registry: what it sends and logs is
    the same whatever the tracked items are when its scrape returns.  In
    particular, untracking an id does not stop a check of that id that is
    already running. *)
Theorem check_ignores_registry
    (st : state) (g : nat) (v : visit) (now : time) (m : gmap string TrackingRequest) :
  step (set_trackingItems st m) (Scraped g v now)
  = match step st (Scraped g v now) with
    | Ok st' => Ok (set_trackingItems st' m)
    | Err f => Err f
    end.
Proof.
  cbn [step]. cbn [set_trackingItems goroutines].
  destruct (goroutines st !! g) as [[id item | | |] |]; try reflexivity.
  unfold checkAndNotify_scraped.
  destruct (scrapePrice v) as [[priceString price] | err]; [| reflexivity].
  destruct (price <=? TargetPrice item)%float; [| reflexivity].
  unfold broadcast. cbn [set_trackingItems clients].
  change (State (clients st) (chans st) m (goroutines st) (log st))
    with (set_trackingItems st m).
  rewrite broadcast_in_set_items.
  destruct (broadcast_in (elements (clients st)) _ st); reflexivity.
Qed.

(** X26: a check whose scraped price is [<=] the target of its snapshot,
    among clients with open channels, appends to the queue of every client
    that has room one alert with the id, the URL and the target price of
    the snapshot, the scraped price and its price string; it logs the alert
    and goes on to the removal. *)
Theorem check_with_crossing_alerts
    (st : state) (g : nat) (id : string) (item : TrackingRequest)
    (v : visit) (now : time) (priceString : string) (price : float) :
  (forall c, c ∈ clients st -> is_open st c = true) ->
  goroutines st !! g = Some (checkAndNotify id item) ->
  scrapePrice v = Ok (priceString, price) ->
  (price <=? TargetPrice item)%float = true ->
  exists st',
    step st (Scraped g v now) = Ok st' /\
    goroutines st' = <[g := checkAndNotify_delete id]> (goroutines st) /\
    log st' = log st ++ [LogPriceAlertSent id] /\
    forall c, c ∈ clients st -> is_full st c = false ->
      c ∈ clients st' /\
      queue st' c = queue st c ++
        [ {| alert_ID := id; alert_URL := URL item;
             alert_CurrentPrice := price; alert_TargetPrice := TargetPrice item;
             alert_PriceString := priceString; alert_Timestamp := RFC3339 now |} ].
Proof.
  intros Hopen Hg Hscrape Hle. cbn [step]. rewrite Hg.
  unfold checkAndNotify_scraped. rewrite Hscrape, Hle.
  set (alert := {| alert_ID := id |}).
  unfold broadcast.
  destruct (broadcast_in_spec alert (elements (clients st)) st (NoDup_elements _))
    as (stb & -> & _ & Hgo & Hlog & _ & Hin & Hcs).
  { intros c Hc. apply Hopen. now apply elem_of_elements in Hc. }
  eexists. split; [reflexivity |].
  cbn [become add_log set_goroutines goroutines log clients chans].
  rewrite Hgo, Hlog.
  split; [reflexivity |]. split; [reflexivity |].
  intros c Hc Hfull.
  assert (Hel : c ∈ elements (clients st)) by now apply elem_of_elements.
  destruct (is_open_lookup st c (Hopen c Hc)) as (ch & Hch & _).
  split.
  - apply Hcs. split; [exact Hc |]. intros [_ Hf]. congruence.
  - pose proof (Hin c ch Hel Hch) as Hnew.
    rewrite (full_no_room st c ch Hch) in Hfull. apply negb_false_iff in Hfull.
    rewrite Hfull in Hnew. unfold queue.
    cbn [become add_log set_goroutines chans]. now rewrite Hnew, Hch.
Qed.

End Checks.

Lemma never_tracked_never_alerted_witness :
  exists st,
    main.run main.init sample.refire = Ok st /\
    (forall c a, In a (main.queue st c) -> main.alert_ID a <> "B"%string) /\
    main.alertsFor "B" (main.log st) = 0%nat /\
    main.trackingItems st !! "B"%string = None.
Proof.
  eexists. split; [vm_compute; reflexivity |].
  apply (never_tracked_never_alerted "B" sample.refire); vm_compute; reflexivity.
Defined.

Lemma check_with_crossing_alerts_witness :
  exists st',
    main.step sample.checking (main.Scraped 1 (main.Visited ["95"%string]) sample.noon)
    = Ok st' /\
    main.goroutines st'
    = <[1%nat := main.checkAndNotify_delete "A"]> (main.goroutines sample.checking) /\
    main.log st' = main.log sample.checking ++ [main.LogPriceAlertSent "A"] /\
    forall c, c ∈ main.clients sample.checking -> main.is_full sample.checking c = false ->
      c ∈ main.clients st' /\
      main.queue st' c = main.queue sample.checking c ++
        [ {| main.alert_ID := "A"; main.alert_URL := main.URL sample.itemA;
             main.alert_CurrentPrice := 95;
             main.alert_TargetPrice := main.TargetPrice sample.itemA;
             main.alert_PriceString := "95";
             main.alert_Timestamp := main.RFC3339 sample.noon |} ].
Proof.
  apply (check_with_crossing_alerts sample.checking 1 "A" sample.itemA
           (main.Visited ["95"%string]) sample.noon "95" 95%float).
  - intros c Hc. cbn [sample.checking main.clients] in Hc.
    apply elem_of_singleton in Hc as ->. vm_compute. reflexivity.
  - reflexivity.
  - vm_compute. reflexivity.
  - vm_compute. reflexivity.
Defined.
